(** * pwa/service-worker.js: the offline cache of the web application

    A shallow embedding of the three event listeners of the service worker
    ([install], [activate], [fetch]) over a model of the browser interfaces
    they call: the network ([fetch]), the origin's [CacheStorage] ([caches])
    and the [Response] constructor.

    Promises are modelled by their settled outcome. A call into the browser
    takes effect where the listener makes it; a [then] callback runs after
    the listener has run to its end; and the one continuation that nobody
    awaits (the [cache.put] of the fetch listener) is registered as a
    detached job, which runs after the listener's promise has settled. *)

From Stdlib Require Import String Ascii.
From stdpp Require Import gmap strings list fin_maps.

Local Open Scope string_scope.
Set Warnings "-register-all".

(** ** Strings *)

Module Str.

(** [s.startsWith(p)] *)
Definition startsWith (s p : string) : bool := String.prefix p s.

(** Longest prefix of [s] with no character satisfying [stop], and the rest. *)
Fixpoint span (stop : ascii -> bool) (s : string) : string * string :=
  match s with
  | EmptyString => (EmptyString, EmptyString)
  | String c s' =>
      if stop c then (EmptyString, s)
      else let (a, b) := span stop s' in (String c a, b)
  end.

Definition is_char (c : ascii) : ascii -> bool := fun d => Ascii.eqb c d.

Fixpoint one_of (cs : string) (d : ascii) : bool :=
  match cs with
  | EmptyString => false
  | String c cs' => Ascii.eqb c d || one_of cs' d
  end.

Definition tail (s : string) : string :=
  match s with EmptyString => EmptyString | String _ s' => s' end.

Definition ascii_lower (c : ascii) : ascii :=
  let n := nat_of_ascii c in
  if ((65 <=? n) && (n <=? 90))%nat then ascii_of_nat (n + 32) else c.

Fixpoint lower (s : string) : string :=
  match s with
  | EmptyString => EmptyString
  | String c s' => String (ascii_lower c) (lower s')
  end.

(** Pieces of [s] between occurrences of [sep]. *)
Fixpoint split (sep : ascii) (s : string) : list string :=
  match s with
  | EmptyString => [EmptyString]
  | String c s' =>
      if Ascii.eqb c sep then EmptyString :: split sep s'
      else match split sep s' with
           | [] => [String c EmptyString]
           | p :: ps => String c p :: ps
           end
  end.

Definition is_blank (c : ascii) : bool := one_of (String " " (String "009" EmptyString)) c.

Fixpoint trim_left (s : string) : string :=
  match s with
  | String c s' => if is_blank c then trim_left s' else s
  | EmptyString => EmptyString
  end.

Fixpoint trim_right (s : string) : string :=
  match s with
  | EmptyString => EmptyString
  | String c s' =>
      match trim_right s' with
      | EmptyString => if is_blank c then EmptyString else String c EmptyString
      | t => String c t
      end
  end.

Definition trim (s : string) : string := trim_right (trim_left s).

Fixpoint join (sep : string) (l : list string) : string :=
  match l with
  | [] => EmptyString
  | [x] => x
  | x :: l' => x +:+ sep +:+ join sep l'
  end.

End Str.

(** ** URLs

    [event.request.url] is the serialisation of an absolute URL, so [new URL]
    only has to cut it back into its components: the scheme up to the first
    colon, the authority after [//], the path up to [?] or [#], the query up
    to [#] and the fragment. *)

Record URL := {
  protocol : string;
  host : string;
  pathname : string;
  search : string;
  hash : string
}.

Definition URL_new (href : string) : URL :=
  let (scheme, r1) := Str.span (Str.is_char ":") href in
  let r1 := Str.tail r1 in
  let (authority, r2) :=
    if Str.startsWith r1 "//"
    then Str.span (Str.one_of "/?#") (Str.tail (Str.tail r1))
    else (EmptyString, r1) in
  let (path, r3) := Str.span (Str.one_of "?#") r2 in
  let (query, fragment) := Str.span (Str.is_char "#") r3 in
  {| protocol := scheme +:+ ":";
     host := authority;
     pathname := path;
     search := query;
     hash := fragment |}.

(** ** Requests and responses *)

Record Request := {
  url : string;
  method : string;
  req_headers : list (string * string)
}.

Record Response := {
  status : nat;
  statusText : string;
  headers : list (string * string);
  body : string
}.

(** [response.ok]: the status is in the range 200-299. *)
Definition ok (r : Response) : bool :=
  ((200 <=? status r) && (status r <=? 299))%nat.

(** [headers.get(name)]: header names compare without regard to case. *)
Fixpoint headers_get (name : string) (hs : list (string * string)) : option string :=
  match hs with
  | [] => None
  | (n, v) :: hs' =>
      if String.eqb (Str.lower n) (Str.lower name) then Some v
      else headers_get name hs'
  end.

(** [response.clone()]: a second response with the same status, headers and
    body. *)
Definition clone (r : Response) : Response := r.

(** ** JSON.stringify, for objects of strings *)

Inductive JSValue :=
| JStr (s : string)
| JObj (props : list (string * JSValue)).

Definition dquote : ascii := "034"%char.
Definition backslash : ascii := "092"%char.

Definition hex_digit (n : nat) : ascii :=
  if (n <? 10)%nat then ascii_of_nat (48 + n) else ascii_of_nat (87 + n).

Definition JSON_escape (c : ascii) : string :=
  let n := nat_of_ascii c in
  if Ascii.eqb c dquote then String backslash (String dquote EmptyString)
  else if Ascii.eqb c backslash then String backslash (String backslash EmptyString)
  else if (n =? 8)%nat then String backslash "b"
  else if (n =? 9)%nat then String backslash "t"
  else if (n =? 10)%nat then String backslash "n"
  else if (n =? 12)%nat then String backslash "f"
  else if (n =? 13)%nat then String backslash "r"
  else if (n <? 32)%nat then
    String backslash ("u00" +:+ String (hex_digit (n / 16)) (String (hex_digit (n mod 16)) EmptyString))
  else String c EmptyString.

Fixpoint JSON_escape_all (s : string) : string :=
  match s with
  | EmptyString => EmptyString
  | String c s' => JSON_escape c +:+ JSON_escape_all s'
  end.

Definition JSON_quote (s : string) : string :=
  String dquote (JSON_escape_all s +:+ String dquote EmptyString).

Fixpoint JSON_stringify (v : JSValue) : string :=
  match v with
  | JStr s => JSON_quote s
  | JObj props =>
      "{" +:+ Str.join ","
                (map (fun kv => JSON_quote (fst kv) +:+ ":" +:+ JSON_stringify (snd kv)) props)
          +:+ "}"
  end.

(** ** The browser: promises, cache storage, recorded calls *)

Inductive Error :=
| TypeError (message : string)
| DOMException (name message : string).

(** A settled promise. *)
Inductive Outcome (A : Type) :=
| Resolved (value : A)
| Rejected (reason : Error).
Arguments Resolved {A} value.
Arguments Rejected {A} reason.

(** What a cache keeps for a URL: the response, and the request it was
    stored for, whose headers decide later matches when the response has a
    [Vary] header. *)
Record Entry := {
  stored_request : Request;
  stored_response : Response
}.

(** One cache: the entry of each request URL. *)
Abbreviation Cache := (gmap string Entry).

(** [caches]: the named caches of the origin, in the order of their
    creation, which is the order [caches.keys()] and [caches.match()] go
    through them. *)
Abbreviation CacheStorage := (list (string * Cache)).

(** Calls the worker makes into the browser, in the order in which they take
    effect. *)
Inductive Call :=
| CallFetch (request : Request)
| CallCachesOpen (name : string)
| CallCachesKeys
| CallCachesDelete (name : string)
| CallCachesMatch (request : Request)
| CallCachePut (name : string) (request : Request)
| CallCacheAddAll (name : string) (urls : list string)
| CallNewResponse (body : string)
| CallSkipWaiting
| CallClientsClaim.

(** A continuation that nobody awaits: in
    [caches.open(name).then((cache) => cache.put(request, response))] the
    cache is opened where the expression stands, and the [then] part runs
    later, on the outcome [opened] of the opening. *)
Inductive Job :=
| ThenPut (opened : Outcome string) (request : Request) (response : Response).

Record World := {
  caches : CacheStorage;
  calls : list Call;
  detached : list Job;
  skip_waiting : bool
}.

Definition set_caches (f : CacheStorage -> CacheStorage) (w : World) : World :=
  {| caches := f (caches w); calls := calls w;
     detached := detached w; skip_waiting := skip_waiting w |}.

Definition add_call (c : Call) (w : World) : World :=
  {| caches := caches w; calls := calls w ++ [c];
     detached := detached w; skip_waiting := skip_waiting w |}.

Definition add_detached (j : Job) (w : World) : World :=
  {| caches := caches w; calls := calls w;
     detached := detached w ++ [j]; skip_waiting := skip_waiting w |}.

Definition clear_detached (w : World) : World :=
  {| caches := caches w; calls := calls w;
     detached := []; skip_waiting := skip_waiting w |}.

Definition set_skip_waiting (w : World) : World :=
  {| caches := caches w; calls := calls w;
     detached := detached w; skip_waiting := true |}.

(** Computations on the browser state. *)
Definition M (A : Type) : Type := World -> A * World.

Definition ret {A} (a : A) : M A := fun w => (a, w).

Definition bind {A B} (m : M A) (k : A -> M B) : M B :=
  fun w => let (a, w') := m w in k a w'.

Notation "'let*' x ':=' m 'in' k" := (bind m (fun x => k))
  (at level 10, x name, m at level 100, k at level 200).
Notation "m ';;' k" := (bind m (fun _ => k))
  (at level 100, k at level 200, right associativity).

Definition modify (f : World -> World) : M unit := fun w => (tt, f w).
Definition gets {A} (f : World -> A) : M A := fun w => (f w, w).

Definition Promise (A : Type) : Type := M (Outcome A).

Definition resolve {A} (a : A) : Promise A := ret (Resolved a).
Definition reject {A} (e : Error) : Promise A := ret (Rejected e).

(** [p.then(f)] *)
Definition then_ {A B} (p : Promise A) (f : A -> Promise B) : Promise B :=
  let* o := p in
  match o with
  | Resolved a => f a
  | Rejected e => reject e
  end.

(** [p.catch(h)] *)
Definition catch_ {A} (p : Promise A) (h : Error -> Promise A) : Promise A :=
  let* o := p in
  match o with
  | Resolved a => resolve a
  | Rejected e => h e
  end.

(** [Promise.all]: the values in order, or the first rejection. *)
Fixpoint Promise_all {A} (os : list (Outcome A)) : Outcome (list A) :=
  match os with
  | [] => Resolved []
  | Rejected e :: _ => Rejected e
  | Resolved a :: os' =>
      match Promise_all os' with
      | Resolved l => Resolved (a :: l)
      | Rejected e => Rejected e
      end
  end.

(** [xs.map(f)] where [f] calls into the browser. *)
Fixpoint mapM {A B} (f : A -> M B) (xs : list A) : M (list B) :=
  match xs with
  | [] => ret []
  | x :: xs' => let* y := f x in let* ys := mapM f xs' in ret (y :: ys)
  end.

(** *** Cache storage *)

Fixpoint store_of (cs : CacheStorage) (name : string) : option Cache :=
  match cs with
  | [] => None
  | (n, c) :: cs' => if String.eqb n name then Some c else store_of cs' name
  end.

Fixpoint store_update (name : string) (f : Cache -> Cache) (cs : CacheStorage) : CacheStorage :=
  match cs with
  | [] => []
  | (n, c) :: cs' =>
      if String.eqb n name then (n, f c) :: cs' else (n, c) :: store_update name f cs'
  end.

Definition store_create (name : string) (cs : CacheStorage) : CacheStorage :=
  match store_of cs name with
  | Some _ => cs
  | None => cs ++ [(name, ∅)]
  end.

Definition store_remove (name : string) (cs : CacheStorage) : CacheStorage :=
  filter (fun nc => fst nc ≠ name) cs.

(** The key of a request in a cache: its URL without the fragment. *)
Definition request_key (req : Request) : string :=
  fst (Str.span (Str.is_char "#") (url req)).

(** The header names listed by the [Vary] header of a response. *)
Definition vary_fields (r : Response) : list string :=
  flat_map (fun nv =>
              if String.eqb (Str.lower (fst nv)) "vary"
              then map Str.trim (Str.split "," (snd nv))
              else [])
           (headers r).

(** A stored entry answers a request only when, for every header its
    response varies on, the request has the value the stored request had. *)
Definition vary_matches (e : Entry) (req : Request) : bool :=
  forallb (fun f =>
             negb (String.eqb f "*")
             && bool_decide (headers_get f (req_headers (stored_request e))
                             = headers_get f (req_headers req)))
          (vary_fields (stored_response e)).

(** [cache.match(request)]: only GET requests match, on the URL and on the
    headers the stored response varies on. *)
Definition cache_lookup (c : Cache) (req : Request) : option Response :=
  if String.eqb (method req) "GET" then
    match c !! request_key req with
    | Some e => if vary_matches e req then Some (stored_response e) else None
    | None => None
    end
  else None.

(** [caches.match(request)] takes the first cache, in creation order, that
    has a match. *)
Fixpoint storage_lookup (cs : CacheStorage) (req : Request) : option Response :=
  match cs with
  | [] => None
  | (_, c) :: cs' =>
      match cache_lookup c req with
      | Some r => Some r
      | None => storage_lookup cs' req
      end
  end.

Definition http_scheme (req : Request) : bool :=
  let p := protocol (URL_new (url req)) in
  String.eqb p "http:" || String.eqb p "https:".

(** A [Vary] header listing [*]. *)
Definition vary_star (r : Response) : bool :=
  existsb (fun nv =>
             String.eqb (Str.lower (fst nv)) "vary"
             && existsb (fun v => String.eqb (Str.trim v) "*") (Str.split "," (snd nv)))
          (headers r).

(** What [cache.put] and [cache.addAll] refuse to store, with a TypeError:
    a request that is not an http(s) GET, a partial response (206), a
    response that varies on everything. *)
Definition storable_request (req : Request) : bool :=
  http_scheme req && String.eqb (method req) "GET".

Definition storable_response (r : Response) : bool :=
  negb (status r =? 206)%nat && negb (vary_star r).

Definition put_accepts (req : Request) (r : Response) : bool :=
  storable_request req && storable_response r.

(** ** The service worker

    [net] is the network as the worker sees it: the outcome of fetching a
    request, a response with whatever status the server sent or a rejection
    when the transport fails. [origin] is the origin the worker is served
    from, against which the asset paths are resolved. *)

Definition CACHE_NAME : string := "atc-v1".

Definition ASSETS : list string :=
  [ "/";
    "/index.html";
    "/manifest.json";
    "/icons/icon-192.png";
    "/icons/icon-512.png" ].

Section Worker.

Variable net : Request -> Outcome Response.
Variable origin : string.

Definition call (c : Call) : M unit := modify (add_call c).

(** [fetch(request)] *)
Definition fetch (req : Request) : Promise Response :=
  call (CallFetch req);;
  ret (net req).

(** [new Response(body, { headers })]: status 200, empty status text. *)
Definition Response_new (b : string) (hs : list (string * string)) : M Response :=
  call (CallNewResponse b);;
  ret {| status := 200; statusText := EmptyString; headers := hs; body := b |}.

(** [caches.open(name)] creates the cache when there is none of that name;
    the cache object it resolves to is stood for by the name. *)
Definition caches_open (name : string) : Promise string :=
  call (CallCachesOpen name);;
  modify (set_caches (store_create name));;
  resolve name.

(** [caches.keys()] *)
Definition caches_keys : Promise (list string) :=
  call CallCachesKeys;;
  let* cs := gets caches in
  resolve (cs.*1).

(** [caches.delete(name)] resolves to whether there was such a cache. *)
Definition caches_delete (name : string) : Promise bool :=
  call (CallCachesDelete name);;
  let* cs := gets caches in
  modify (set_caches (store_remove name));;
  resolve (bool_decide (is_Some (store_of cs name))).

(** [caches.match(request)] resolves to the response or to undefined. *)
Definition caches_match (req : Request) : Promise (option Response) :=
  call (CallCachesMatch req);;
  let* cs := gets caches in
  resolve (storage_lookup cs req).

(** [cache.put(request, response)] replaces what the cache kept for the
    URL. A cache object whose cache has been deleted no longer backs a name:
    writing through it changes nothing in [caches]. *)
Definition cache_put (cache : string) (req : Request) (r : Response) : Promise unit :=
  call (CallCachePut cache req);;
  if put_accepts req r then
    modify (set_caches (store_update cache
              (insert (request_key req) {| stored_request := req; stored_response := r |})));;
    resolve tt
  else reject (TypeError "Failed to execute 'put' on 'Cache'").

(** The request [cache.addAll] makes for an asset path. *)
Definition asset_request (path : string) : Request :=
  {| url := origin +:+ path; method := "GET"; req_headers := [] |}.

(** Every outcome a storable response, kept with its request under the
    request's key. *)
Fixpoint fetched_entries (reqs : list Request) (os : list (Outcome Response))
  : option (list (string * Entry)) :=
  match reqs, os with
  | [], [] => Some []
  | req :: reqs', Resolved r :: os' =>
      if ok r && storable_response r then
        match fetched_entries reqs' os' with
        | Some l =>
            Some ((request_key req, {| stored_request := req; stored_response := r |}) :: l)
        | None => None
        end
      else None
  | _, _ => None
  end.

(** [cache.addAll(urls)] fetches every URL and stores the responses all
    together, or nothing: it rejects when a request cannot be stored, when
    a fetch fails or answers with a status outside 200-299 or with a
    response that cannot be stored, and when two of the requests have the
    same key. *)
Definition cache_addAll (cache : string) (urls : list string) : Promise unit :=
  call (CallCacheAddAll cache urls);;
  let reqs := map asset_request urls in
  if forallb storable_request reqs then
    let* os := mapM fetch reqs in
    match fetched_entries reqs os with
    | None => reject (TypeError "Failed to execute 'addAll' on 'Cache': Request failed")
    | Some entries =>
        if bool_decide (NoDup (entries.*1)) then
          modify (set_caches (store_update cache (fun c => list_to_map entries ∪ c)));;
          resolve tt
        else reject (DOMException "InvalidStateError"
                                  "Failed to execute 'addAll' on 'Cache': duplicate requests")
    end
  else reject (TypeError "Failed to execute 'addAll' on 'Cache': Request scheme is unsupported").

(** [self.skipWaiting()] *)
Definition skipWaiting : M unit :=
  call CallSkipWaiting;;
  modify set_skip_waiting.

(** [self.clients.claim()] *)
Definition clients_claim : M unit := call CallClientsClaim.

(** [event.waitUntil(p)] and [event.respondWith(p)]: the event settles as
    [p] does. *)
Definition waitUntil {A} (p : Promise A) : Promise A := p.
Definition respondWith (p : Promise Response) : Promise Response := p.

(** A continuation that is registered and dropped: it runs after the
    listener's own promise has settled. *)
Definition detach (j : Job) : M unit := modify (add_detached j).

(** A listener runs to its end before any [then] callback does. In
    [event.waitUntil(caches.open(...).then(...)); self.skipWaiting()] the
    cache is opened, then [skipWaiting] is called, and only then does the
    callback run; likewise in the activate listener. *)

(** *** install: cache core assets *)
Definition on_install : Promise unit :=
  let* opened := caches_open CACHE_NAME in
  let lifetime := then_ (ret opened) (fun cache => cache_addAll cache ASSETS) in
  skipWaiting;;
  waitUntil lifetime.

(** *** activate: clean old caches *)
Definition on_activate : Promise (list bool) :=
  let* listed := caches_keys in
  let lifetime :=
    then_ (ret listed) (fun keys =>
      let* deletions := mapM caches_delete (filter (fun k => k ≠ CACHE_NAME) keys) in
      ret (Promise_all deletions)) in
  clients_claim;;
  waitUntil lifetime.

(** *** fetch: network first for API calls, cache first for static assets *)

Definition offline_body : string :=
  JSON_stringify (JObj [("error", JStr "You appear to be offline.")]).

(** API calls: always go to network *)
Definition api_call (request : Request) : Promise Response :=
  respondWith
    (catch_ (fetch request) (fun _ =>
       let* r := Response_new offline_body [("Content-Type", "application/json")] in
       resolve r)).

(** Static assets: cache first, fallback to network *)
Definition static_asset (request : Request) : Promise Response :=
  respondWith
    (then_ (caches_match request) (fun cached =>
       match cached with
       | Some c => resolve c
       | None =>
           then_ (fetch request) (fun response =>
             (if ok response && String.eqb (method request) "GET" then
                let copy := clone response in
                let* opened := caches_open CACHE_NAME in
                detach (ThenPut opened request copy)
              else ret tt);;
             resolve response)
       end)).

Definition on_fetch (request : Request) : Promise Response :=
  let u := URL_new (url request) in
  if Str.startsWith (pathname u) "/api/" then api_call request
  else static_asset request.

(** *** Detached jobs *)

Definition run_job (j : Job) : Promise unit :=
  match j with
  | ThenPut opened req r => then_ (ret opened) (fun cache => cache_put cache req r)
  end.

(** Let every pending job run; a rejection there is handled by nobody. *)
Definition settle (w : World) : World :=
  fold_left (fun w j => snd (run_job j w)) (detached w) (clear_detached w).

(** *** The worker's life cycle

    What the browser does with the outcome of the install listener of a
    new worker [v]: a rejected [waitUntil] promise discards the worker and
    leaves the registration as it was; otherwise the worker waits, or
    activates at once when it asked to skip waiting or nothing is active. *)

Record Registration := {
  active : option string;
  waiting : option string
}.

Definition activate_worker (v : string) : M Registration :=
  on_activate;;
  ret {| active := Some v; waiting := None |}.

Definition install_worker (v : string) (reg : Registration) : M Registration :=
  let* settled := on_install in
  match settled with
  | Rejected _ => ret reg
  | Resolved _ =>
      let* skip := gets skip_waiting in
      if skip || negb (bool_decide (is_Some (active reg)))
      then activate_worker v
      else ret {| active := active reg; waiting := Some v |}
  end.

End Worker.

(** ** Notions used in the statements *)

(** The calls issued between two states. *)
Definition new_calls (w w' : World) : list Call :=
  drop (length (calls w)) (calls w').

(** Several calls at once. *)
Definition add_calls (cs : list Call) (w : World) : World :=
  {| caches := caches w; calls := calls w ++ cs;
     detached := detached w; skip_waiting := skip_waiting w |}.

(** What a detached job does to the caches, whatever else the state holds. *)
Definition job_effect (j : Job) (cs : CacheStorage) : CacheStorage :=
  match j with
  | ThenPut (Resolved name) req r =>
      if put_accepts req r
      then store_update name
             (insert (request_key req) {| stored_request := req; stored_response := r |}) cs
      else cs
  | ThenPut (Rejected _) _ _ => cs
  end.

(** The caches created before the one called [name]. *)
Fixpoint stores_before (name : string) (cs : CacheStorage) : CacheStorage :=
  match cs with
  | [] => []
  | (n, c) :: cs' => if String.eqb n name then [] else (n, c) :: stores_before name cs'
  end.

(** The state in which the callback of the install listener starts: the
    cache has been opened and [skipWaiting] called. *)
Definition install_opened (w : World) : World :=
  set_skip_waiting
    (add_call CallSkipWaiting
       (set_caches (store_create CACHE_NAME) (add_call (CallCachesOpen CACHE_NAME) w))).

(** The response the fetch listener sets out to keep, if any: the [ok]
    answer of the network to a GET request outside the API branch that no
    cache matched. *)
Definition copy_to_store (net : Request -> Outcome Response) (request : Request)
    (w : World) : option Response :=
  if Str.startsWith (pathname (URL_new (url request))) "/api/" then None
  else match storage_lookup (caches w) request, net request with
       | None, Resolved r =>
           if ok r && String.eqb (method request) "GET" then Some r else None
       | _, _ => None
       end.

(** The calls that go to the network. *)
Definition is_fetch (c : Call) : bool :=
  match c with CallFetch _ => true | _ => false end.

(** The calls that read or change the caches. *)
Definition is_cache_call (c : Call) : bool :=
  match c with
  | CallCachesOpen _ | CallCachesKeys | CallCachesDelete _ | CallCachesMatch _
  | CallCachePut _ _ | CallCacheAddAll _ _ => true
  | _ => false
  end.

(** The fallback of the API branch. *)
Definition offline_text : string :=
  String "{" (String dquote ("error" +:+ String dquote (":" +:+
    String dquote ("You appear to be offline." +:+ String dquote "}")))).

Definition offline_response : Response :=
  {| status := 200;
     statusText := EmptyString;
     headers := [("Content-Type", "application/json")];
     body := offline_text |}.

(** How a request is seen to be handled: network only, when the listener's
    first call is the fetch and its answer the network's response or, the
    fetch rejected, the fallback; cache first, when its first call is the
    cache lookup. *)
Definition network_only (net : Request -> Outcome Response) (request : Request)
    (w : World) : Prop :=
  on_fetch net request = api_call net request
  /\ (exists more, new_calls w (snd (on_fetch net request w)) = CallFetch request :: more)
  /\ fst (on_fetch net request w)
     = match net request with
       | Resolved r => Resolved r
       | Rejected _ => Resolved offline_response
       end.

Definition cache_first (net : Request -> Outcome Response) (request : Request)
    (w : World) : Prop :=
  on_fetch net request = static_asset net request
  /\ (exists more,
        new_calls w (snd (on_fetch net request w)) = CallCachesMatch request :: more)
  /\ fst (on_fetch net request w)
     = match storage_lookup (caches w) request with
       | Some c => Resolved c
       | None => net request
       end.

(** ** Sample runs *)

Module Samples.

Definition origin : string := "https://app.example".

Definition get (path : string) : Request :=
  {| url := origin +:+ path; method := "GET"; req_headers := [] |}.

Definition post (path : string) : Request :=
  {| url := origin +:+ path; method := "POST"; req_headers := [] |}.

Definition page (st : nat) (b : string) : Response :=
  {| status := st; statusText := EmptyString;
     headers := [("content-type", "text/html")]; body := b |}.

(** The network is down. *)
Definition net_down (req : Request) : Outcome Response :=
  Rejected (TypeError "Failed to fetch").

(** The server answers every request with its URL. *)
Definition net_up (req : Request) : Outcome Response :=
  Resolved (page 200 (url req)).

(** The server answers every request with a partial response. *)
Definition net_partial (req : Request) : Outcome Response :=
  Resolved (page 206 (url req)).

(** What a cache keeps once [r] has been stored for [req]. *)
Definition stored (req : Request) (r : Response) : Entry :=
  {| stored_request := req; stored_response := r |}.

Definition fresh : World :=
  {| caches := []; calls := []; detached := []; skip_waiting := false |}.

Definition with_caches (cs : CacheStorage) : World :=
  {| caches := cs; calls := []; detached := []; skip_waiting := false |}.

End Samples.

(** Worlds with a cache of an earlier version. *)

Module Shadowed.

(** The cache of an earlier version, created before the current one and
    still there, holds another response for the same page. *)
Definition old_page : Response := Samples.page 200 "old".
Definition new_page : Response := Samples.page 200 "new".
Definition request : Request := Samples.get "/index.html".

Definition world : World :=
  Samples.with_caches
    [ ("atc-v0", {[ request_key request := Samples.stored request old_page ]});
      (CACHE_NAME, {[ request_key request := Samples.stored request new_page ]}) ].

End Shadowed.

Module Varying.

(** One URL asked for in two representations, by the [Accept] header, the
    server saying so with [Vary: Accept]; the first one is cached. *)
Definition first : Request :=
  {| url := "https://app.example/report"; method := "GET";
     req_headers := [("Accept", "application/json")] |}.

Definition second : Request :=
  {| url := "https://app.example/report"; method := "GET";
     req_headers := [("Accept", "text/html")] |}.

Definition json : Response :=
  {| status := 200; statusText := EmptyString;
     headers := [("Content-Type", "application/json"); ("Vary", "Accept")];
     body := "{}" |}.

Definition html : Response :=
  {| status := 200; statusText := EmptyString;
     headers := [("Content-Type", "text/html"); ("Vary", "Accept")];
     body := "<p></p>" |}.

Definition net (req : Request) : Outcome Response :=
  if bool_decide (headers_get "Accept" (req_headers req) = Some "text/html")
  then Resolved html else Resolved json.

Definition world : World :=
  Samples.with_caches [(CACHE_NAME, {[ request_key first := Samples.stored first json ]})].

End Varying.

Module NoCurrent.

(** A cache of an earlier version, and none of the current one. *)
Definition world : World := Samples.with_caches [("atc-v0", ∅)].

End NoCurrent.

(** ** Shared lemmas *)

Lemma new_calls_add_call c w0 w :
  new_calls w0 (add_call c w) = drop (length (calls w0)) (calls w ++ [c]).
Proof. reflexivity. Qed.

Lemma drop_length_app {A} (l k : list A) : drop (length l) (l ++ k) = k.
Proof. by rewrite drop_app_length. Qed.

Lemma run_job_caches j w : caches (snd (run_job j w)) = job_effect j (caches w).
Proof.
  destruct j as [[name|e] req r]; unfold run_job, job_effect, then_,
    cache_put, call, resolve, reject, modify, bind, ret; simpl; [|done].
  by destruct (put_accepts req r).
Qed.

Lemma fold_run_job_caches js w :
  caches (fold_left (fun w j => snd (run_job j w)) js w)
  = fold_left (fun cs j => job_effect j cs) js (caches w).
Proof.
  revert w. induction js as [|j js IH]; intros w; simpl; [done|].
  by rewrite IH, run_job_caches.
Qed.

Lemma settle_caches w :
  caches (settle w) = fold_left (fun cs j => job_effect j cs) (detached w) (caches w).
Proof. unfold settle. by rewrite fold_run_job_caches. Qed.

(** ** Cache storage *)

Lemma store_of_app_None (cs cs' : CacheStorage) name :
  store_of cs name = None -> store_of (cs ++ cs') name = store_of cs' name.
Proof.
  induction cs as [|[n c] cs IH]; simpl; [done|].
  by destruct (String.eqb n name).
Qed.

Lemma store_of_create (cs : CacheStorage) name :
  store_of (store_create name cs) name
  = Some (default ∅ (store_of cs name)).
Proof.
  unfold store_create. destruct (store_of cs name) as [c|] eqn:Hs; simpl; [done|].
  rewrite store_of_app_None by done. simpl. by rewrite String.eqb_refl.
Qed.

Lemma store_of_update (cs : CacheStorage) name f :
  store_of (store_update name f cs) name = f <$> store_of cs name.
Proof.
  induction cs as [|[n c] cs IH]; simpl; [done|].
  destruct (String.eqb n name) eqn:Hn; simpl; by rewrite Hn.
Qed.

Lemma store_of_update_ne (cs : CacheStorage) name f n :
  n <> name -> store_of (store_update name f cs) n = store_of cs n.
Proof.
  intros Hne. induction cs as [|[m c] cs IH]; simpl; [done|].
  destruct (String.eqb_spec m name) as [->|Hm]; simpl.
  - by destruct (String.eqb_spec name n) as [->|_].
  - by rewrite IH.
Qed.

Lemma store_of_create_ne (cs : CacheStorage) name n :
  n <> name -> store_of (store_create name cs) n = store_of cs n.
Proof.
  intros Hne. unfold store_create. destruct (store_of cs name); [done|].
  induction cs as [|[m c] cs IH]; simpl.
  - by destruct (String.eqb_spec name n) as [->|_].
  - by destruct (String.eqb m n).
Qed.

Lemma store_create_present (cs : CacheStorage) name :
  is_Some (store_of cs name) -> store_create name cs = cs.
Proof. intros [c Hc]. unfold store_create. by rewrite Hc. Qed.

Lemma store_update_idemp (cs : CacheStorage) name f :
  (forall c : Cache, f (f c) = f c) ->
  store_update name f (store_update name f cs) = store_update name f cs.
Proof.
  intros Hf. induction cs as [|[m c] cs IH]; simpl; [done|].
  destruct (String.eqb m name) eqn:Hm; simpl; rewrite Hm; [by rewrite Hf|by rewrite IH].
Qed.

Lemma store_update_names (cs : CacheStorage) name f :
  (store_update name f cs).*1 = cs.*1.
Proof.
  induction cs as [|[n c] cs IH]; [done|]. cbn [store_update].
  destruct (String.eqb n name); [done|]. by rewrite !fmap_cons, IH.
Qed.

Lemma store_of_None_names (cs : CacheStorage) name :
  store_of cs name = None -> name ∉ cs.*1.
Proof.
  induction cs as [|[n c] cs IH]; simpl; [intros _; apply not_elem_of_nil|].
  destruct (String.eqb_spec n name) as [->|Hne]; [done|].
  intros Hs. apply not_elem_of_cons. split; [congruence|by apply IH].
Qed.

Lemma store_create_NoDup (cs : CacheStorage) name :
  NoDup (cs.*1) -> NoDup ((store_create name cs).*1).
Proof.
  intros Hnd. unfold store_create.
  destruct (store_of cs name) eqn:Hs; [done|].
  rewrite fmap_app. simpl. apply NoDup_app. split; [done|].
  split; [|apply NoDup_singleton].
  intros x Hx ->%list_elem_of_singleton.
  by apply (store_of_None_names cs name Hs).
Qed.

Lemma store_remove_NoDup (cs : CacheStorage) name :
  NoDup (cs.*1) -> NoDup ((store_remove name cs).*1).
Proof.
  unfold store_remove. induction cs as [|[n c] cs IH]; simpl; [done|].
  intros [Hn Hnd]%NoDup_cons. rewrite filter_cons. simpl.
  destruct (decide (n ≠ name)); [|by apply IH].
  simpl. apply NoDup_cons. split; [|by apply IH].
  intros ((m & d) & Hm & Hin%list_elem_of_filter)%list_elem_of_fmap.
  simpl in Hm. subst m. apply Hn, list_elem_of_fmap. exists (n, d). by destruct Hin.
Qed.

Lemma store_update_keeps_store (cs : CacheStorage) name f n :
  is_Some (store_of cs n) -> is_Some (store_of (store_update name f cs) n).
Proof.
  intros [c Hc]. destruct (decide (n = name)) as [->|Hne].
  - rewrite store_of_update, Hc. by eexists.
  - rewrite store_of_update_ne by done. by eexists.
Qed.

(** *** Matching *)

Lemma cache_lookup_not_get (c : Cache) req :
  method req <> "GET" -> cache_lookup c req = None.
Proof.
  intros Hm. unfold cache_lookup.
  by destruct (String.eqb_spec (method req) "GET").
Qed.

Lemma storage_lookup_not_get (cs : CacheStorage) req :
  method req <> "GET" -> storage_lookup cs req = None.
Proof.
  intros Hm. induction cs as [|[n c] cs IH]; simpl; [done|].
  by rewrite cache_lookup_not_get.
Qed.

Lemma storage_lookup_app (cs cs' : CacheStorage) q :
  storage_lookup (cs ++ cs') q
  = match storage_lookup cs q with
    | Some r => Some r
    | None => storage_lookup cs' q
    end.
Proof.
  induction cs as [|[n c] cs IH]; simpl; [done|].
  by destruct (cache_lookup c q).
Qed.

Lemma cache_lookup_empty q : cache_lookup ∅ q = None.
Proof. unfold cache_lookup. by destruct (String.eqb (method q) "GET"). Qed.

Lemma storage_lookup_create (cs : CacheStorage) name q :
  storage_lookup (store_create name cs) q = storage_lookup cs q.
Proof.
  unfold store_create. destruct (store_of cs name); [done|].
  rewrite storage_lookup_app. simpl. rewrite cache_lookup_empty.
  by destruct (storage_lookup cs q).
Qed.

Lemma storage_lookup_update_frame (cs : CacheStorage) name f q :
  (forall c : Cache, cache_lookup (f c) q = cache_lookup c q) ->
  storage_lookup (store_update name f cs) q = storage_lookup cs q.
Proof.
  intros Hf. induction cs as [|[n c] cs IH]; simpl; [done|].
  destruct (String.eqb n name); simpl; [by rewrite Hf|by rewrite IH].
Qed.

Lemma cache_lookup_insert_other (c : Cache) k e q :
  request_key q <> k -> cache_lookup (<[k:=e]> c) q = cache_lookup c q.
Proof.
  intros Hk. unfold cache_lookup.
  destruct (String.eqb (method q) "GET"); [|done]. by rewrite lookup_insert_ne.
Qed.

(** A response the cache accepts lists no [*] among the headers it varies
    on, so the entry stored for a request answers that request. *)
Lemma vary_fields_no_star (r : Response) :
  vary_star r = false ->
  forall f, In f (vary_fields r) -> String.eqb f "*" = false.
Proof.
  unfold vary_star, vary_fields. induction (headers r) as [|[n v] hs IH]; simpl; [done|].
  intros [Hhead Htail]%orb_false_iff f [Hf|Hf]%in_app_or; [|by apply IH].
  destruct (String.eqb (Str.lower n) "vary"); [|done]. simpl in Hhead.
  apply in_map_iff in Hf as (x & <- & Hx).
  destruct (String.eqb (Str.trim x) "*") eqn:Hstar; [|done].
  assert (existsb (fun v0 => String.eqb (Str.trim v0) "*") (Str.split "," v) = true)
    as Hex by (apply existsb_exists; by exists x).
  congruence.
Qed.

Lemma vary_matches_own (req : Request) (r : Response) :
  vary_star r = false ->
  vary_matches {| stored_request := req; stored_response := r |} req = true.
Proof.
  intros Hstar. unfold vary_matches. apply forallb_forall. intros f Hf. simpl in *.
  rewrite (vary_fields_no_star r Hstar f Hf). simpl. by apply bool_decide_eq_true.
Qed.

Lemma put_accepts_get req r : put_accepts req r = true -> method req = "GET".
Proof.
  unfold put_accepts, storable_request.
  by intros [[_ Hm%String.eqb_eq]%andb_true_iff _]%andb_true_iff.
Qed.

Lemma put_accepts_no_star req r : put_accepts req r = true -> vary_star r = false.
Proof.
  unfold put_accepts, storable_response.
  by intros [_ [_ Hv%negb_true_iff]%andb_true_iff]%andb_true_iff.
Qed.

Lemma cache_lookup_insert_own (c : Cache) req r :
  put_accepts req r = true ->
  cache_lookup (<[request_key req := {| stored_request := req; stored_response := r |}]> c) req
  = Some r.
Proof.
  intros Hacc. unfold cache_lookup.
  rewrite (put_accepts_get _ _ Hacc), lookup_insert_eq. simpl.
  by rewrite (vary_matches_own req r (put_accepts_no_star _ _ Hacc)).
Qed.

Lemma storage_lookup_update_hit (cs : CacheStorage) name req r :
  put_accepts req r = true ->
  storage_lookup cs req = None ->
  is_Some (store_of cs name) ->
  storage_lookup
    (store_update name
       (insert (request_key req) {| stored_request := req; stored_response := r |}) cs) req
  = Some r.
Proof.
  intros Hacc. induction cs as [|[n c] cs IH]; simpl; [by intros _ [? [=]]|].
  destruct (cache_lookup c req) eqn:Hc; [done|]. intros Hmiss.
  destruct (String.eqb n name); simpl.
  - intros _. by rewrite cache_lookup_insert_own.
  - intros Hs. rewrite Hc. by apply IH.
Qed.

(** *** Detached writes *)

(** A write leaves the answer for every request of another URL. *)
Lemma storage_lookup_job_other (cs : CacheStorage) opened req r q :
  request_key q <> request_key req ->
  storage_lookup (job_effect (ThenPut opened req r) cs) q = storage_lookup cs q.
Proof.
  intros Hk. destruct opened as [name|e]; simpl; [|done].
  destruct (put_accepts req r); [|done].
  apply storage_lookup_update_frame. intros c. by apply cache_lookup_insert_other.
Qed.

(** An accepted write of a request that no cache matched makes the caches
    answer it with the written response. *)
Lemma storage_lookup_job_hit (cs : CacheStorage) name req r :
  put_accepts req r = true ->
  storage_lookup cs req = None ->
  is_Some (store_of cs name) ->
  storage_lookup (job_effect (ThenPut (Resolved name) req r) cs) req = Some r.
Proof.
  intros Hacc Hmiss Hs. simpl. rewrite Hacc. by apply storage_lookup_update_hit.
Qed.

Lemma job_effect_names j (cs : CacheStorage) : (job_effect j cs).*1 = cs.*1.
Proof.
  destruct j as [[name|e] req r]; simpl; [|done].
  destruct (put_accepts req r); [|done]. apply store_update_names.
Qed.

Lemma job_effect_keeps_store j (cs : CacheStorage) n :
  is_Some (store_of cs n) -> is_Some (store_of (job_effect j cs) n).
Proof.
  intros Hs. destruct j as [[name|e] req r]; simpl; [|done].
  destruct (put_accepts req r); [|done]. by apply store_update_keeps_store.
Qed.

Lemma fold_job_effect_keeps_store js (cs : CacheStorage) n :
  is_Some (store_of cs n) ->
  is_Some (store_of (fold_left (fun cs j => job_effect j cs) js cs) n).
Proof.
  revert cs. induction js as [|j js IH]; intros cs Hs; [done|].
  simpl. by apply IH, job_effect_keeps_store.
Qed.

Lemma job_effect_stores (cs : CacheStorage) name req r :
  is_Some (store_of cs name) ->
  put_accepts req r = true ->
  exists store,
    store_of (job_effect (ThenPut (Resolved name) req r) cs) name = Some store
    /\ cache_lookup store req = Some r.
Proof.
  intros [c Hc] Hacc. simpl. rewrite Hacc, store_of_update, Hc. simpl.
  eexists. split; [done|]. by apply cache_lookup_insert_own.
Qed.

Lemma settle_one_job w j :
  detached w = [j] -> caches (settle w) = job_effect j (caches w).
Proof. intros Hd. by rewrite settle_caches, Hd. Qed.

Lemma settle_no_job w : detached w = [] -> caches (settle w) = caches w.
Proof. intros Hd. by rewrite settle_caches, Hd. Qed.

Ltac run_listener :=
  unfold on_fetch, api_call, static_asset, respondWith, waitUntil,
    catch_, then_, fetch, caches_match, caches_open, Response_new, detach, call,
    resolve, reject, modify, gets, bind, ret; simpl.

Lemma offline_body_text : offline_body = offline_text.
Proof. reflexivity. Qed.

Lemma offline_response_ok : ok offline_response = true.
Proof. reflexivity. Qed.

Lemma offline_response_content_type :
  headers_get "content-type" (headers offline_response) = Some "application/json".
Proof. reflexivity. Qed.

(** ** The fetch listener, API branch *)

Section ApiBranch.

Variable net : Request -> Outcome Response.
Variable request : Request.
Hypothesis api_path :
  Str.startsWith (pathname (URL_new (url request))) "/api/" = true.

Lemma on_fetch_api w : on_fetch net request w = api_call net request w.
Proof. unfold on_fetch. by rewrite api_path. Qed.

Lemma api_call_rejected w e :
  net request = Rejected e ->
  api_call net request w =
    (Resolved offline_response,
     add_call (CallNewResponse offline_text) (add_call (CallFetch request) w)).
Proof. intros Hnet. run_listener. by rewrite Hnet. Qed.

Lemma api_call_resolved w r :
  net request = Resolved r ->
  api_call net request w = (Resolved r, add_call (CallFetch request) w).
Proof. intros Hnet. run_listener. by rewrite Hnet. Qed.

End ApiBranch.

(** C1. For a request whose pathname starts with the API prefix: when the
    fetch is rejected the listener answers with a response built on the
    spot, of status 200 (so [ok]), body [{"error":"You appear to be
    offline."}] and header Content-Type: application/json, and the
    rejection reaches nobody; when the fetch resolves, whatever its status,
    the listener answers with that very response. A response is built
    exactly when the fetch was rejected. *)
Theorem api_fallback_exactly_on_transport_failure
    (net : Request -> Outcome Response) (request : Request) (w : World) :
  Str.startsWith (pathname (URL_new (url request))) "/api/" = true ->
  (forall e, net request = Rejected e ->
     fst (on_fetch net request w) = Resolved offline_response
     /\ body offline_response = offline_text
     /\ headers_get "Content-Type" (headers offline_response) = Some "application/json"
     /\ status offline_response = 200
     /\ ok offline_response = true)
  /\ (forall r, net request = Resolved r ->
        fst (on_fetch net request w) = Resolved r)
  /\ ((exists b, CallNewResponse b ∈ new_calls w (snd (on_fetch net request w)))
      <-> exists e, net request = Rejected e).
Proof.
  intros Hapi. rewrite (on_fetch_api _ _ Hapi). repeat split.
  - by rewrite (api_call_rejected net request w e).
  - intros r Hnet. by rewrite (api_call_resolved net request w r).
  - intros [b Hb]. destruct (net request) as [r|e] eqn:Hnet; [|by eexists].
    rewrite (api_call_resolved net request w r Hnet) in Hb. simpl in Hb.
    rewrite new_calls_add_call, drop_length_app in Hb.
    apply list_elem_of_singleton in Hb. discriminate.
  - intros [e Hnet]. exists offline_text.
    rewrite (api_call_rejected net request w e Hnet). simpl.
    unfold new_calls. simpl. rewrite <- app_assoc, drop_length_app.
    set_solver.
Qed.

Lemma api_fallback_exactly_on_transport_failure_witness :
  fst (on_fetch Samples.net_down (Samples.get "/api/status") Samples.fresh)
  = Resolved offline_response.
Proof.
  destruct (api_fallback_exactly_on_transport_failure
              Samples.net_down (Samples.get "/api/status") Samples.fresh)
    as [Hdown _]; [reflexivity|].
  destruct (Hdown (TypeError "Failed to fetch")) as [Hres _]; [reflexivity|].
  exact Hres.
Defined.

(** C10. Handling a request of the API branch leaves every cache as it was
    and starts no cache write, whatever the method and whatever the fetch
    does. *)
Theorem api_branch_leaves_caches
    (net : Request -> Outcome Response) (request : Request) (w : World) :
  Str.startsWith (pathname (URL_new (url request))) "/api/" = true ->
  caches (snd (on_fetch net request w)) = caches w
  /\ detached (snd (on_fetch net request w)) = detached w
  /\ caches (settle (snd (on_fetch net request w))) = caches (settle w).
Proof.
  intros Hapi. rewrite (on_fetch_api _ _ Hapi), !settle_caches.
  destruct (net request) as [r|e] eqn:Hnet.
  - by rewrite (api_call_resolved net request w r Hnet).
  - by rewrite (api_call_rejected net request w e Hnet).
Qed.

Lemma api_branch_leaves_caches_witness :
  caches (snd (on_fetch Samples.net_up (Samples.post "/api/orders")
                 (Samples.with_caches [("atc-v1", ∅)])))
  = [("atc-v1", ∅)].
Proof.
  destruct (api_branch_leaves_caches Samples.net_up (Samples.post "/api/orders")
              (Samples.with_caches [("atc-v1", ∅)])) as [H _]; [reflexivity|].
  exact H.
Defined.

(** ** The fetch listener, static-asset branch *)

Lemma storage_lookup_first (cs : CacheStorage) name (store : Cache) req r :
  store_of cs name = Some store ->
  storage_lookup (stores_before name cs) req = None ->
  cache_lookup store req = Some r ->
  storage_lookup cs req = Some r.
Proof.
  induction cs as [|[n c] cs IH]; simpl; [done|].
  destruct (String.eqb n name); simpl.
  - intros [= ->] _ Hr. by rewrite Hr.
  - intros Hs Hb Hr. destruct (cache_lookup c req); [done|]. by apply IH.
Qed.

Section StaticBranch.

Variable net : Request -> Outcome Response.
Variable request : Request.
Hypothesis other_path :
  Str.startsWith (pathname (URL_new (url request))) "/api/" = false.

Lemma on_fetch_static w : on_fetch net request w = static_asset net request w.
Proof. unfold on_fetch. by rewrite other_path. Qed.

Lemma static_asset_hit w c :
  storage_lookup (caches w) request = Some c ->
  static_asset net request w = (Resolved c, add_call (CallCachesMatch request) w).
Proof. intros Hc. run_listener. by rewrite Hc. Qed.

Lemma static_asset_miss_rejected w e :
  storage_lookup (caches w) request = None ->
  net request = Rejected e ->
  static_asset net request w =
    (Rejected e, add_call (CallFetch request) (add_call (CallCachesMatch request) w)).
Proof. intros Hc Hnet. run_listener. by rewrite Hc, Hnet. Qed.

Lemma static_asset_miss_stored w r :
  storage_lookup (caches w) request = None ->
  net request = Resolved r ->
  ok r && String.eqb (method request) "GET" = true ->
  static_asset net request w =
    (Resolved r,
     add_detached (ThenPut (Resolved CACHE_NAME) request r)
       (set_caches (store_create CACHE_NAME)
          (add_call (CallCachesOpen CACHE_NAME)
             (add_call (CallFetch request) (add_call (CallCachesMatch request) w))))).
Proof. intros Hc Hnet Hg. run_listener. by rewrite Hc, Hnet, Hg. Qed.

Lemma static_asset_miss_unstored w r :
  storage_lookup (caches w) request = None ->
  net request = Resolved r ->
  ok r && String.eqb (method request) "GET" = false ->
  static_asset net request w =
    (Resolved r, add_call (CallFetch request) (add_call (CallCachesMatch request) w)).
Proof. intros Hc Hnet Hg. run_listener. by rewrite Hc, Hnet, Hg. Qed.

End StaticBranch.

(** Any cache hit is answered without the network. *)
Lemma static_hit_no_network
    (net : Request -> Outcome Response) (request : Request) (w : World) c :
  Str.startsWith (pathname (URL_new (url request))) "/api/" = false ->
  storage_lookup (caches w) request = Some c ->
  fst (on_fetch net request w) = Resolved c
  /\ new_calls w (snd (on_fetch net request w)) = [CallCachesMatch request].
Proof.
  intros Hp Hc. rewrite (on_fetch_static _ _ Hp), (static_asset_hit _ _ _ _ Hc).
  split; [done|]. simpl. by rewrite new_calls_add_call, drop_length_app.
Qed.

Lemma stores_before_sole (cs : CacheStorage) name :
  cs.*1 = [name] -> stores_before name cs = [].
Proof.
  destruct cs as [|[n c] cs]; [done|]. intros [= -> _]. simpl.
  by rewrite String.eqb_refl.
Qed.

(** Once activation has left the current cache alone, its entries are what
    the listener answers with. *)
Lemma sole_cache_entry_returned
    (net : Request -> Outcome Response) (request : Request) (w : World)
    (store : Cache) (r : Response) :
  Str.startsWith (pathname (URL_new (url request))) "/api/" = false ->
  (caches w).*1 = [CACHE_NAME] ->
  store_of (caches w) CACHE_NAME = Some store ->
  cache_lookup store request = Some r ->
  fst (on_fetch net request w) = Resolved r.
Proof.
  intros Hp Hsole Hs Hr.
  apply (static_hit_no_network net request w r Hp).
  apply (storage_lookup_first _ CACHE_NAME store); [done| |done].
  by rewrite (stores_before_sole _ _ Hsole).
Qed.

(** *** Cache hits *)

(** C2, as stated, fails: the current cache has an entry for the request,
    and the listener answers with the entry of a cache created earlier. *)
Lemma active_entry_returned_counterexample :
  Str.startsWith (pathname (URL_new (url Shadowed.request))) "/api/" = false
  /\ (exists store,
        store_of (caches Shadowed.world) CACHE_NAME = Some store
        /\ cache_lookup store Shadowed.request = Some Shadowed.new_page)
  /\ fst (on_fetch Samples.net_up Shadowed.request Shadowed.world)
     = Resolved Shadowed.old_page
  /\ Shadowed.old_page <> Shadowed.new_page.
Proof.
  split; [reflexivity|]. split; [|split].
  - eexists. split; reflexivity.
  - reflexivity.
  - discriminate.
Qed.

(** C2, amended. For a request outside the API branch, when the current cache
    has an entry for it and no cache created before the current one has,
    the listener answers with that entry, and the only call it makes is the
    cache lookup: nothing goes to the network. *)
Theorem active_entry_returned_when_first
    (net : Request -> Outcome Response) (request : Request) (w : World)
    (store : Cache) (r : Response) :
  Str.startsWith (pathname (URL_new (url request))) "/api/" = false ->
  store_of (caches w) CACHE_NAME = Some store ->
  cache_lookup store request = Some r ->
  storage_lookup (stores_before CACHE_NAME (caches w)) request = None ->
  fst (on_fetch net request w) = Resolved r
  /\ new_calls w (snd (on_fetch net request w)) = [CallCachesMatch request]
  /\ (forall q, CallFetch q ∉ new_calls w (snd (on_fetch net request w))).
Proof.
  intros Hp Hs Hr Hb.
  pose proof (storage_lookup_first _ _ _ _ _ Hs Hb Hr) as Hc.
  destruct (static_hit_no_network net request w r Hp Hc) as [H1 H2].
  repeat split; [done..|].
  intros q. rewrite H2. by intros [=]%list_elem_of_singleton.
Qed.

Lemma active_entry_returned_when_first_witness :
  fst (on_fetch Samples.net_down (Samples.get "/index.html")
         (Samples.with_caches
            [(CACHE_NAME, {[ "https://app.example/index.html" :=
                               Samples.stored (Samples.get "/index.html") (Samples.page 200 "home") ]})]))
  = Resolved (Samples.page 200 "home").
Proof.
  destruct (active_entry_returned_when_first Samples.net_down (Samples.get "/index.html")
              (Samples.with_caches
                 [(CACHE_NAME, {[ "https://app.example/index.html" :=
                               Samples.stored (Samples.get "/index.html") (Samples.page 200 "home") ]})])
              {[ "https://app.example/index.html" :=
                   Samples.stored (Samples.get "/index.html") (Samples.page 200 "home") ]}
              (Samples.page 200 "home")) as [H _]; [reflexivity..|].
  exact H.
Defined.

(** *** Cache misses *)

(** C8. For a request outside the API branch that no cache matches, a
    rejected fetch rejects the listener's answer with the same reason: no
    response is built in its place, and no cache is touched. *)
Theorem static_miss_failure_propagates
    (net : Request -> Outcome Response) (request : Request) (w : World) (e : Error) :
  Str.startsWith (pathname (URL_new (url request))) "/api/" = false ->
  storage_lookup (caches w) request = None ->
  net request = Rejected e ->
  fst (on_fetch net request w) = Rejected e
  /\ new_calls w (snd (on_fetch net request w))
     = [CallCachesMatch request; CallFetch request]
  /\ caches (snd (on_fetch net request w)) = caches w
  /\ detached (snd (on_fetch net request w)) = detached w.
Proof.
  intros Hp Hc Hnet.
  rewrite (on_fetch_static _ _ Hp), (static_asset_miss_rejected _ _ _ _ Hc Hnet).
  repeat split. unfold new_calls. simpl.
  by rewrite <- app_assoc, drop_length_app.
Qed.

Lemma static_miss_failure_propagates_witness :
  fst (on_fetch Samples.net_down (Samples.get "/logo.png") Samples.fresh)
  = Rejected (TypeError "Failed to fetch").
Proof.
  destruct (static_miss_failure_propagates Samples.net_down (Samples.get "/logo.png")
              Samples.fresh (TypeError "Failed to fetch")) as [H _]; [reflexivity..|].
  exact H.
Defined.

(** C7. For a request outside the API branch whose method is not GET (no
    cache ever matches such a request), a fetch that resolves is the
    listener's answer, and the caches stay as they were: nothing is written
    and no write is started. *)
Theorem static_miss_not_get_unstored
    (net : Request -> Outcome Response) (request : Request) (w : World) (r : Response) :
  Str.startsWith (pathname (URL_new (url request))) "/api/" = false ->
  storage_lookup (caches w) request = None ->
  method request <> "GET" ->
  net request = Resolved r ->
  fst (on_fetch net request w) = Resolved r
  /\ caches (snd (on_fetch net request w)) = caches w
  /\ detached (snd (on_fetch net request w)) = detached w
  /\ caches (settle (snd (on_fetch net request w))) = caches (settle w).
Proof.
  intros Hp Hc Hm Hnet.
  assert (ok r && String.eqb (method request) "GET" = false) as Hg.
  { apply andb_false_iff. right. by apply String.eqb_neq. }
  rewrite (on_fetch_static _ _ Hp), (static_asset_miss_unstored _ _ _ _ Hc Hnet Hg).
  by rewrite !settle_caches.
Qed.

Lemma static_miss_not_get_unstored_witness :
  caches (snd (on_fetch Samples.net_up (Samples.post "/upload")
                 (Samples.with_caches [(CACHE_NAME, ∅)])))
  = [(CACHE_NAME, ∅)].
Proof.
  destruct (static_miss_not_get_unstored Samples.net_up (Samples.post "/upload")
              (Samples.with_caches [(CACHE_NAME, ∅)])
              (Samples.page 200 "https://app.example/upload")) as (_ & H & _);
    [reflexivity|reflexivity|discriminate|reflexivity|].
  exact H.
Defined.

(** C3, as stated, fails: a partial response (206) has a 2xx status, the
    listener answers with it, and the write it starts is refused by the
    cache, which holds no entry for the request afterwards. *)
Lemma static_miss_get_stored_counterexample :
  Str.startsWith (pathname (URL_new (url (Samples.get "/intro.mp4")))) "/api/" = false
  /\ method (Samples.get "/intro.mp4") = "GET"
  /\ storage_lookup (caches Samples.fresh) (Samples.get "/intro.mp4") = None
  /\ Samples.net_partial (Samples.get "/intro.mp4")
     = Resolved (Samples.page 206 "https://app.example/intro.mp4")
  /\ ok (Samples.page 206 "https://app.example/intro.mp4") = true
  /\ fst (on_fetch Samples.net_partial (Samples.get "/intro.mp4") Samples.fresh)
     = Resolved (Samples.page 206 "https://app.example/intro.mp4")
  /\ storage_lookup
       (caches (settle (snd (on_fetch Samples.net_partial (Samples.get "/intro.mp4")
                               Samples.fresh))))
       (Samples.get "/intro.mp4") = None.
Proof. repeat split. Qed.

(** C3, amended. For a GET request outside the API branch that no cache
    matches, when the fetch resolves with a status in 200-299 the listener
    answers with that response, and it does so with the current cache opened
    (created, empty, when it was not there) and the write only registered:
    no cache answers the request yet, the write is not waited for. When the
    cache accepts the pair (an http or https URL, a status other than 206,
    no [Vary: *]), the current cache holds that response for the request
    once the registered writes have run. *)
Theorem static_miss_get_stored_when_accepted
    (net : Request -> Outcome Response) (request : Request) (w : World) (r : Response) :
  Str.startsWith (pathname (URL_new (url request))) "/api/" = false ->
  method request = "GET" ->
  storage_lookup (caches w) request = None ->
  net request = Resolved r ->
  ok r = true ->
  fst (on_fetch net request w) = Resolved r
  /\ caches (snd (on_fetch net request w)) = store_create CACHE_NAME (caches w)
  /\ storage_lookup (caches (snd (on_fetch net request w))) request = None
  /\ detached (snd (on_fetch net request w))
     = (detached w ++ [ThenPut (Resolved CACHE_NAME) request r])%list
  /\ (put_accepts request r = true ->
      exists store,
        store_of (caches (settle (snd (on_fetch net request w)))) CACHE_NAME = Some store
        /\ cache_lookup store request = Some r).
Proof.
  intros Hp Hm Hc Hnet Hok.
  assert (ok r && String.eqb (method request) "GET" = true) as Hg.
  { by rewrite Hok, Hm. }
  rewrite (on_fetch_static _ _ Hp), (static_asset_miss_stored _ _ _ _ Hc Hnet Hg).
  simpl. split; [done|]. split; [done|]. split; [by rewrite storage_lookup_create|].
  split; [done|].
  intros Hacc. rewrite settle_caches. simpl.
  rewrite fold_left_app. simpl fold_left at 1.
  apply job_effect_stores; [|done].
  apply fold_job_effect_keeps_store. rewrite store_of_create. by eexists.
Qed.

Lemma static_miss_get_stored_when_accepted_witness :
  exists store,
    store_of (caches (settle (snd (on_fetch Samples.net_up (Samples.get "/logo.png")
                                     Samples.fresh)))) CACHE_NAME = Some store
    /\ cache_lookup store (Samples.get "/logo.png")
       = Some (Samples.page 200 "https://app.example/logo.png").
Proof.
  destruct (static_miss_get_stored_when_accepted Samples.net_up (Samples.get "/logo.png")
              Samples.fresh (Samples.page 200 "https://app.example/logo.png"))
    as (_ & _ & _ & _ & H); [reflexivity..|].
  apply H. reflexivity.
Defined.

(** ** The install listener *)

Lemma add_calls_nil w : add_calls [] w = w.
Proof. destruct w. unfold add_calls. simpl. by rewrite app_nil_r. Qed.

Lemma add_calls_cons c cs w : add_calls cs (add_call c w) = add_calls (c :: cs) w.
Proof. unfold add_calls, add_call. simpl. by rewrite <- app_assoc. Qed.

Lemma mapM_fetch net reqs w :
  mapM (fetch net) reqs w = (map net reqs, add_calls (map CallFetch reqs) w).
Proof.
  revert w. induction reqs as [|req reqs IH]; intros w; simpl.
  - by rewrite add_calls_nil.
  - unfold bind at 1. unfold fetch at 1, call, modify, bind, ret. simpl.
    unfold bind. rewrite IH. by rewrite add_calls_cons.
Qed.

Lemma fetched_entries_resolved net reqs entries :
  fetched_entries reqs (map net reqs) = Some entries ->
  forall req, req ∈ reqs ->
    exists r,
      net req = Resolved r /\ ok r = true /\ vary_star r = false
      /\ (request_key req, {| stored_request := req; stored_response := r |}) ∈ entries.
Proof.
  revert entries. induction reqs as [|q reqs IH]; intros entries; simpl.
  - intros _ req Hin. by apply elem_of_nil in Hin.
  - destruct (net q) as [r|e] eqn:Hq; [|done].
    destruct (ok r && storable_response r) eqn:Hok; [|done].
    destruct (fetched_entries reqs (map net reqs)) as [l|] eqn:Hl; [|done].
    intros [= <-] req [->|Hin]%elem_of_cons.
    + exists r. apply andb_true_iff in Hok as [Hok Hst].
      unfold storable_response in Hst.
      apply andb_true_iff in Hst as [_ Hv%negb_true_iff].
      split; [done|]. split; [done|]. split; [done|]. apply elem_of_cons. by left.
    + destruct (IH l eq_refl req Hin) as (r' & ? & ? & ? & ?).
      exists r'. split; [done|]. split; [done|]. split; [done|].
      apply elem_of_cons. by right.
Qed.

Lemma fetched_entries_rejected net reqs req e :
  req ∈ reqs -> net req = Rejected e -> fetched_entries reqs (map net reqs) = None.
Proof.
  intros Hin Hnet.
  destruct (fetched_entries reqs (map net reqs)) as [entries|] eqn:Hf; [|done].
  destruct (fetched_entries_resolved net reqs entries Hf req Hin) as (r & Hr & _).
  congruence.
Qed.

(** The caches after [cache.addAll], whichever way it settles. *)
Lemma cache_addAll_settles net origin cache urls w :
  let reqs := map (asset_request origin) urls in
  (exists entries,
      fst (cache_addAll net origin cache urls w) = Resolved tt
      /\ fetched_entries reqs (map net reqs) = Some entries
      /\ NoDup (entries.*1)
      /\ caches (snd (cache_addAll net origin cache urls w))
         = store_update cache (fun c => list_to_map entries ∪ c) (caches w))
  \/ (exists e,
         fst (cache_addAll net origin cache urls w) = Rejected e
         /\ (forallb storable_request reqs = false
             \/ fetched_entries reqs (map net reqs) = None
             \/ exists entries, fetched_entries reqs (map net reqs) = Some entries
                                /\ ~ NoDup (entries.*1))
         /\ caches (snd (cache_addAll net origin cache urls w)) = caches w).
Proof.
  intros reqs. unfold cache_addAll, call, modify, bind at 1 2. fold reqs.
  destruct (forallb storable_request reqs) eqn:Hs.
  - unfold bind. rewrite mapM_fetch.
    destruct (fetched_entries reqs (map net reqs)) as [entries|] eqn:Hf.
    + destruct (bool_decide (NoDup (entries.*1))) eqn:Hd.
      * left. exists entries. apply bool_decide_eq_true in Hd. by repeat split.
      * right. eexists. apply bool_decide_eq_false in Hd.
        split; [reflexivity|]. split; [|reflexivity]. right. right. by exists entries.
    + right. eexists. split; [reflexivity|]. split; [|reflexivity]. right. by left.
  - right. eexists. split; [reflexivity|]. split; [|reflexivity]. by left.
Qed.

Lemma install_opened_caches w :
  caches (install_opened w) = store_create CACHE_NAME (caches w).
Proof. reflexivity. Qed.

Lemma cache_addAll_skip_waiting net origin cache urls w :
  skip_waiting (snd (cache_addAll net origin cache urls w)) = skip_waiting w.
Proof.
  unfold cache_addAll, call, modify, bind. simpl.
  destruct (forallb storable_request (map (asset_request origin) urls)); [|done].
  rewrite mapM_fetch.
  destruct (fetched_entries _ _) as [entries|]; [|done].
  by destruct (bool_decide (NoDup (entries.*1))).
Qed.

(** The install listener is [cache.addAll] run after the opening of the
    cache and the call of [skipWaiting]. *)
Lemma on_install_run net origin w :
  on_install net origin w = cache_addAll net origin CACHE_NAME ASSETS (install_opened w).
Proof. reflexivity. Qed.

Lemma on_install_unfold net origin w :
  fst (on_install net origin w)
  = fst (cache_addAll net origin CACHE_NAME ASSETS (install_opened w))
  /\ caches (snd (on_install net origin w))
     = caches (snd (cache_addAll net origin CACHE_NAME ASSETS (install_opened w)))
  /\ skip_waiting (snd (on_install net origin w)) = true.
Proof.
  rewrite on_install_run. split; [done|]. split; [done|].
  by rewrite cache_addAll_skip_waiting.
Qed.

Lemma asset_request_elem origin path urls :
  path ∈ urls -> asset_request origin path ∈ map (asset_request origin) urls.
Proof. intros Hin. apply list_elem_of_In, in_map. by apply list_elem_of_In. Qed.

Lemma on_install_resolved_stored net origin w :
  fst (on_install net origin w) = Resolved tt ->
  forall path, path ∈ ASSETS ->
    exists r store,
      net (asset_request origin path) = Resolved r
      /\ ok r = true
      /\ store_of (caches (snd (on_install net origin w))) CACHE_NAME = Some store
      /\ cache_lookup store (asset_request origin path) = Some r.
Proof.
  intros Hres path Hin.
  destruct (on_install_unfold net origin w) as (Hfst & Hcaches & _).
  rewrite Hfst in Hres. rewrite Hcaches.
  destruct (cache_addAll_settles net origin CACHE_NAME ASSETS
              (install_opened w))
    as [(entries & _ & Hf & Hnd & ->)|(e & He & _)]; [|congruence].
  destruct (fetched_entries_resolved net _ entries Hf
              (asset_request origin path) (asset_request_elem origin path ASSETS Hin))
    as (r & Hr & Hok & Hstar & Hentry).
  exists r. eexists. split; [done|]. split; [done|]. split.
  - rewrite install_opened_caches, store_of_update, store_of_create. reflexivity.
  - unfold cache_lookup. simpl.
    rewrite (lookup_union_Some_l _ _ _ _ (elem_of_list_to_map_1 _ _ _ Hnd Hentry)).
    by rewrite (vary_matches_own _ r Hstar).
Qed.

Lemma on_install_rejected net origin w path e :
  path ∈ ASSETS ->
  net (asset_request origin path) = Rejected e ->
  (exists e', fst (on_install net origin w) = Rejected e')
  /\ caches (snd (on_install net origin w)) = store_create CACHE_NAME (caches w).
Proof.
  intros Hin Hnet.
  destruct (on_install_unfold net origin w) as (Hfst & Hcaches & _).
  rewrite Hfst, Hcaches.
  pose proof (fetched_entries_rejected net _ _ e
                (asset_request_elem origin path ASSETS Hin) Hnet) as Hnone.
  destruct (cache_addAll_settles net origin CACHE_NAME ASSETS
              (install_opened w))
    as [(entries & _ & Hf & _)|(e' & He' & _ & ->)]; [congruence|].
  split; [by exists e'|done].
Qed.

(** C4. When the install listener's promise resolves, the cache named by
    [CACHE_NAME] holds, for every path of [ASSETS], the response the network
    gave for it. *)
Theorem install_stores_every_asset
    (net : Request -> Outcome Response) (origin : string) (w : World) :
  fst (on_install net origin w) = Resolved tt ->
  forall path, path ∈ ASSETS ->
    exists r store,
      net (asset_request origin path) = Resolved r
      /\ store_of (caches (snd (on_install net origin w))) CACHE_NAME = Some store
      /\ cache_lookup store (asset_request origin path) = Some r.
Proof.
  intros Hres path Hin.
  destruct (on_install_resolved_stored net origin w Hres path Hin)
    as (r & store & ? & _ & ? & ?).
  by exists r, store.
Qed.

Lemma install_stores_every_asset_witness :
  exists r store,
    Samples.net_up (asset_request Samples.origin "/manifest.json") = Resolved r
    /\ store_of (caches (snd (on_install Samples.net_up Samples.origin Samples.fresh)))
         CACHE_NAME = Some store
    /\ cache_lookup store (asset_request Samples.origin "/manifest.json") = Some r.
Proof.
  apply (install_stores_every_asset Samples.net_up Samples.origin Samples.fresh).
  - reflexivity.
  - unfold ASSETS. repeat constructor.
Defined.

(** C5. When the fetch of one asset is rejected, the install listener's
    promise is rejected and nothing is stored (the cache is only created);
    the browser then drops the new worker: the registration is as it was, its
    active worker included, and the activate listener does not run.
    Conversely the promise resolves only when every asset was fetched, with a
    status in 200-299, and stored. *)
Theorem install_fails_when_a_fetch_fails
    (net : Request -> Outcome Response) (origin : string) (w : World)
    (v : string) (reg : Registration) :
  (forall path e,
      path ∈ ASSETS ->
      net (asset_request origin path) = Rejected e ->
      (exists e', fst (on_install net origin w) = Rejected e')
      /\ caches (snd (on_install net origin w)) = store_create CACHE_NAME (caches w)
      /\ install_worker net origin v reg w = (reg, snd (on_install net origin w)))
  /\ (fst (on_install net origin w) = Resolved tt ->
      forall path, path ∈ ASSETS ->
        exists r store,
          net (asset_request origin path) = Resolved r
          /\ ok r = true
          /\ store_of (caches (snd (on_install net origin w))) CACHE_NAME = Some store
          /\ cache_lookup store (asset_request origin path) = Some r).
Proof.
  split; [|apply on_install_resolved_stored].
  intros path e Hin Hnet.
  destruct (on_install_rejected net origin w path e Hin Hnet) as [[e' He'] Hc].
  split; [by exists e'|]. split; [done|].
  unfold install_worker, bind.
  destruct (on_install net origin w) as [[[]|e''] w2]; [discriminate|done].
Qed.

Lemma install_fails_when_a_fetch_fails_witness :
  install_worker Samples.net_down Samples.origin "v1"
    {| active := Some "v0"; waiting := None |}
    (Samples.with_caches [("atc-v0", ∅)])
  = ({| active := Some "v0"; waiting := None |},
     snd (on_install Samples.net_down Samples.origin (Samples.with_caches [("atc-v0", ∅)]))).
Proof.
  destruct (install_fails_when_a_fetch_fails Samples.net_down Samples.origin
              (Samples.with_caches [("atc-v0", ∅)]) "v1"
              {| active := Some "v0"; waiting := None |}) as [H _].
  destruct (H "/index.html" (TypeError "Failed to fetch")) as (_ & _ & Hreg).
  - unfold ASSETS. repeat constructor.
  - reflexivity.
  - exact Hreg.
Defined.

(** ** The activate listener *)

Lemma filter_ext_in {A} (P Q : A -> Prop)
    `{!forall x, Decision (P x), !forall x, Decision (Q x)} (l : list A) :
  (forall x, x ∈ l -> P x <-> Q x) -> filter P l = filter Q l.
Proof.
  induction l as [|a l IH]; intros Hpq; [done|].
  rewrite !filter_cons, IH by (intros x Hx; apply Hpq, elem_of_cons; by right).
  apply decide_ext, Hpq, elem_of_cons. by left.
Qed.

Lemma filter_all {A} (P : A -> Prop) `{!forall x, Decision (P x)} (l : list A) :
  (forall x, x ∈ l -> P x) -> filter P l = l.
Proof.
  induction l as [|a l IH]; intros Hp; [done|].
  rewrite filter_cons_True by (apply Hp, elem_of_cons; by left).
  rewrite IH; [done|]. intros x Hx. apply Hp, elem_of_cons. by right.
Qed.

(** Deleting the caches of a list of names keeps the others, in order. *)
Lemma fold_store_remove (names : list string) (cs : CacheStorage) :
  fold_left (fun cs n => store_remove n cs) names cs
  = filter (fun nc => nc.1 ∉ names) cs.
Proof.
  revert cs. induction names as [|n names IH]; intros cs; simpl.
  - symmetry. apply filter_all. intros x _. apply not_elem_of_nil.
  - rewrite IH. unfold store_remove. rewrite list_filter_filter.
    apply list_filter_iff. intros x. rewrite not_elem_of_cons. tauto.
Qed.

Lemma mapM_cons {A B} (f : A -> M B) x xs w :
  mapM f (x :: xs) w
  = (let (y, w1) := f x w in let (ys, w2) := mapM f xs w1 in (y :: ys, w2)).
Proof. reflexivity. Qed.

Lemma caches_delete_run n w :
  caches_delete n w
  = (Resolved (bool_decide (is_Some (store_of (caches w) n))),
     set_caches (store_remove n) (add_call (CallCachesDelete n) w)).
Proof. reflexivity. Qed.

Lemma mapM_caches_delete names w :
  (exists bs, fst (mapM caches_delete names w) = map Resolved bs)
  /\ caches (snd (mapM caches_delete names w))
     = fold_left (fun cs n => store_remove n cs) names (caches w).
Proof.
  revert w. induction names as [|n names IH]; intros w.
  - split; [by exists []|done].
  - rewrite mapM_cons, caches_delete_run.
    destruct (IH (set_caches (store_remove n) (add_call (CallCachesDelete n) w)))
      as [[bs Hbs] Hcs].
    destruct (mapM caches_delete names _) as [os w2]. simpl in *. subst os.
    split; [|done].
    by exists (bool_decide (is_Some (store_of (caches w) n)) :: bs).
Qed.

Lemma Promise_all_resolved {A} (l : list A) : Promise_all (map Resolved l) = Resolved l.
Proof. induction l as [|a l IH]; simpl; [done|]. by rewrite IH. Qed.

(** The activate listener is the deletions, run after the listing of the
    names and the claim of the clients. *)
Lemma on_activate_run w :
  on_activate w
  = (Promise_all
       (fst (mapM caches_delete (filter (fun k => k ≠ CACHE_NAME) ((caches w).*1))
               (add_call CallClientsClaim (add_call CallCachesKeys w)))),
     snd (mapM caches_delete (filter (fun k => k ≠ CACHE_NAME) ((caches w).*1))
            (add_call CallClientsClaim (add_call CallCachesKeys w)))).
Proof.
  unfold on_activate, waitUntil, then_, caches_keys, clients_claim, call,
    resolve, modify, gets, bind, ret. simpl.
  by destruct (mapM caches_delete _ _).
Qed.

(** The activate listener resolves and leaves the caches named [CACHE_NAME]. *)
Lemma on_activate_caches w :
  (exists bs, fst (on_activate w) = Resolved bs)
  /\ caches (snd (on_activate w))
     = filter (fun nc => nc.1 = CACHE_NAME) (caches w).
Proof.
  rewrite on_activate_run.
  set (names := filter (fun k => k ≠ CACHE_NAME) ((caches w).*1)).
  set (w1 := add_call CallClientsClaim (add_call CallCachesKeys w)).
  destruct (mapM_caches_delete names w1) as [[bs Hbs] Hcs].
  destruct (mapM caches_delete names w1) as [os w2]. simpl in *. subst os.
  rewrite Promise_all_resolved. split; [by exists bs|]. simpl.
  rewrite Hcs, fold_store_remove. apply filter_ext_in.
  intros [n c] Hin. simpl. unfold names. rewrite list_elem_of_filter.
  split.
  - intros Hn. destruct (decide (n = CACHE_NAME)) as [|Hne]; [done|].
    destruct Hn. split; [done|]. apply list_elem_of_fmap. by exists (n, c).
  - intros -> [Hne _]. done.
Qed.

Lemma store_of_absent (cs : CacheStorage) name :
  name ∉ cs.*1 ->
  filter (fun nc => nc.1 = name) cs = [] /\ store_of cs name = None.
Proof.
  induction cs as [|[n c] cs IH]; simpl; [done|].
  intros [Hne Hn]%not_elem_of_cons. rewrite filter_cons_False by (simpl; congruence).
  destruct (String.eqb_spec n name) as [->|_]; [done|]. by apply IH.
Qed.

Lemma filter_name_NoDup (cs : CacheStorage) name :
  NoDup (cs.*1) ->
  (filter (fun nc => nc.1 = name) cs).*1
  = match store_of cs name with Some _ => [name] | None => [] end
  /\ store_of (filter (fun nc => nc.1 = name) cs) name = store_of cs name.
Proof.
  induction cs as [|[n c] cs IH]; simpl; [done|].
  intros [Hn Hnd]%NoDup_cons. rewrite filter_cons. simpl.
  destruct (String.eqb_spec n name) as [->|Hne].
  - rewrite decide_True by done. simpl. rewrite String.eqb_refl.
    destruct (store_of_absent cs name Hn) as [-> _]. done.
  - rewrite decide_False by done. by apply IH.
Qed.

Lemma store_of_filter_other (cs : CacheStorage) name n :
  n <> name -> store_of (filter (fun nc => nc.1 = name) cs) n = None.
Proof.
  intros Hne. induction cs as [|[m c] cs IH]; simpl; [done|].
  rewrite filter_cons. simpl. destruct (decide (m = name)) as [->|]; [|done].
  simpl. destruct (String.eqb_spec name n) as [->|_]; done.
Qed.

(** From any state with distinct names, the activate listener leaves the
    cache of the current name, as it was, when there is one, and no cache
    otherwise: every cache under another name is gone. *)
Lemma on_activate_from_any_state (w : World) :
  NoDup ((caches w).*1) ->
  (exists bs, fst (on_activate w) = Resolved bs)
  /\ (caches (snd (on_activate w))).*1
     = match store_of (caches w) CACHE_NAME with
       | Some _ => [CACHE_NAME]
       | None => []
       end
  /\ (forall n, n <> CACHE_NAME -> store_of (caches (snd (on_activate w))) n = None)
  /\ store_of (caches (snd (on_activate w))) CACHE_NAME = store_of (caches w) CACHE_NAME
  /\ length (filter (fun n => n = CACHE_NAME) ((caches (snd (on_activate w))).*1)) <= 1.
Proof.
  intros Hnd. destruct (on_activate_caches w) as [Hres ->].
  destruct (filter_name_NoDup (caches w) CACHE_NAME Hnd) as [Hnames Hstore].
  split; [done|]. split; [done|]. split; [|split; [done|]].
  - intros n Hne. by apply store_of_filter_other.
  - rewrite Hnames. destruct (store_of (caches w) CACHE_NAME); simpl; lia.
Qed.

(** ** Cache names stay distinct; a whole upgrade *)

Lemma on_install_NoDup net origin w :
  NoDup ((caches w).*1) -> NoDup ((caches (snd (on_install net origin w))).*1).
Proof.
  intros Hnd. destruct (on_install_unfold net origin w) as (_ & -> & _).
  destruct (cache_addAll_settles net origin CACHE_NAME ASSETS
              (install_opened w))
    as [(entries & _ & _ & _ & ->)|(e & _ & _ & ->)]; simpl;
    rewrite ?store_update_names; by apply store_create_NoDup.
Qed.

Lemma on_activate_NoDup w :
  NoDup ((caches w).*1) -> NoDup ((caches (snd (on_activate w))).*1).
Proof.
  intros Hnd. destruct (on_activate_caches w) as [_ ->].
  destruct (filter_name_NoDup (caches w) CACHE_NAME Hnd) as [-> _].
  destruct (store_of (caches w) CACHE_NAME); [apply NoDup_singleton|apply NoDup_nil_2].
Qed.

(** A new worker whose install succeeds takes over at once (it asked to skip
    waiting), and activation then leaves exactly the cache it has just
    filled. *)
Lemma upgrade_leaves_current_cache net origin v reg w :
  NoDup ((caches w).*1) ->
  fst (on_install net origin w) = Resolved tt ->
  fst (install_worker net origin v reg w) = {| active := Some v; waiting := None |}
  /\ (caches (snd (install_worker net origin v reg w))).*1 = [CACHE_NAME]
  /\ store_of (caches (snd (install_worker net origin v reg w))) CACHE_NAME
     = store_of (caches (snd (on_install net origin w))) CACHE_NAME.
Proof.
  intros Hnd Hres.
  pose proof (on_install_NoDup net origin w Hnd) as Hnd'.
  destruct (on_install_unfold net origin w) as (_ & _ & Hskip).
  destruct (on_install_resolved_stored net origin w Hres "/")
    as (_ & store & _ & _ & Hstore & _); [unfold ASSETS; repeat constructor|].
  unfold install_worker, activate_worker, gets, bind, ret.
  destruct (on_install net origin w) as [[[]|e] w1]; [|discriminate].
  simpl in *. rewrite Hskip. simpl.
  destruct (on_activate_caches w1) as [_ Hc].
  destruct (filter_name_NoDup (caches w1) CACHE_NAME Hnd') as [Hnames Hkeep].
  destruct (on_activate w1) as [o w2]. simpl in *.
  rewrite Hc, Hnames, Hkeep, Hstore. done.
Qed.

Example upgrade_from_v0 :
  (caches (snd (install_worker Samples.net_up Samples.origin "v1"
                  {| active := Some "v0"; waiting := None |} NoCurrent.world))).*1
  = [CACHE_NAME].
Proof. reflexivity. Qed.

Example install_fills_five_entries :
  (size <$> store_of (caches (snd (on_install Samples.net_up Samples.origin Samples.fresh)))
              CACHE_NAME) = Some 5.
Proof. reflexivity. Qed.

(** ** The fetch listener as a whole *)

Lemma new_calls_add_calls cs w : new_calls w (add_calls cs w) = cs.
Proof. unfold new_calls. simpl. apply drop_length_app. Qed.

Lemma add_call_twice c1 c2 w : add_call c2 (add_call c1 w) = add_calls [c1; c2] w.
Proof. unfold add_call, add_calls. simpl. by rewrite <- app_assoc. Qed.

Lemma new_calls_add_detached j w0 w : new_calls w0 (add_detached j w) = new_calls w0 w.
Proof. reflexivity. Qed.

(** The answer of the listener, in every case. *)
Lemma on_fetch_outcome net request w :
  fst (on_fetch net request w)
  = if Str.startsWith (pathname (URL_new (url request))) "/api/"
    then match net request with
         | Resolved r => Resolved r
         | Rejected _ => Resolved offline_response
         end
    else match storage_lookup (caches w) request with
         | Some c => Resolved c
         | None => net request
         end.
Proof.
  destruct (Str.startsWith _ _) eqn:Hp.
  - rewrite (on_fetch_api _ _ Hp). destruct (net request) as [r|e] eqn:Hnet.
    + by rewrite (api_call_resolved _ _ _ _ Hnet).
    + by rewrite (api_call_rejected _ _ _ _ Hnet).
  - rewrite (on_fetch_static _ _ Hp).
    destruct (storage_lookup (caches w) request) as [c|] eqn:Hc.
    + by rewrite (static_asset_hit _ _ _ _ Hc).
    + destruct (net request) as [r|e] eqn:Hnet.
      * destruct (ok r && String.eqb (method request) "GET") eqn:Hg.
        -- by rewrite (static_asset_miss_stored _ _ _ _ Hc Hnet Hg).
        -- by rewrite (static_asset_miss_unstored _ _ _ _ Hc Hnet Hg).
      * by rewrite (static_asset_miss_rejected _ _ _ _ Hc Hnet).
Qed.

Lemma add_call_thrice c1 c2 c3 w :
  add_call c3 (add_call c2 (add_call c1 w)) = add_calls [c1; c2; c3] w.
Proof. unfold add_call, add_calls. simpl. by rewrite <- !app_assoc. Qed.

Lemma new_calls_set_caches f w0 w : new_calls w0 (set_caches f w) = new_calls w0 w.
Proof. reflexivity. Qed.

Lemma copy_to_store_not_get net request w :
  method request <> "GET" -> copy_to_store net request w = None.
Proof.
  intros Hm%String.eqb_neq. unfold copy_to_store.
  destruct (Str.startsWith _ _); [done|].
  destruct (storage_lookup (caches w) request); [done|].
  destruct (net request) as [r|e]; [|done]. by rewrite Hm, andb_false_r.
Qed.

(** The calls of the listener, in every case. *)
Lemma on_fetch_trace net request w :
  new_calls w (snd (on_fetch net request w))
  = if Str.startsWith (pathname (URL_new (url request))) "/api/"
    then match net request with
         | Resolved _ => [CallFetch request]
         | Rejected _ => [CallFetch request; CallNewResponse offline_text]
         end
    else match storage_lookup (caches w) request with
         | Some _ => [CallCachesMatch request]
         | None =>
             ([CallCachesMatch request; CallFetch request]
              ++ match copy_to_store net request w with
                 | Some _ => [CallCachesOpen CACHE_NAME]
                 | None => []
                 end)%list
         end.
Proof.
  unfold copy_to_store. destruct (Str.startsWith _ _) eqn:Hp.
  - rewrite (on_fetch_api _ _ Hp). destruct (net request) as [r|e] eqn:Hnet.
    + rewrite (api_call_resolved _ _ _ _ Hnet). simpl.
      apply (new_calls_add_calls [CallFetch request]).
    + rewrite (api_call_rejected _ _ _ _ Hnet). simpl.
      rewrite add_call_twice. apply new_calls_add_calls.
  - rewrite (on_fetch_static _ _ Hp).
    destruct (storage_lookup (caches w) request) as [c|] eqn:Hc.
    + rewrite (static_asset_hit _ _ _ _ Hc). simpl.
      apply (new_calls_add_calls [CallCachesMatch request]).
    + destruct (net request) as [r|e] eqn:Hnet.
      * destruct (ok r && String.eqb (method request) "GET") eqn:Hg.
        -- rewrite (static_asset_miss_stored _ _ _ _ Hc Hnet Hg). simpl.
           rewrite new_calls_add_detached, new_calls_set_caches, add_call_thrice.
           apply new_calls_add_calls.
        -- rewrite (static_asset_miss_unstored _ _ _ _ Hc Hnet Hg). simpl.
           rewrite add_call_twice. apply new_calls_add_calls.
      * rewrite (static_asset_miss_rejected _ _ _ _ Hc Hnet). simpl.
        rewrite add_call_twice. apply new_calls_add_calls.
Qed.

(** The listener writes no entry itself. When it sets out to keep a copy it
    opens the current cache, creating it when it is not there, and
    registers the write; otherwise it leaves the caches as they were. *)
Lemma on_fetch_storage net request w :
  caches (snd (on_fetch net request w))
  = match copy_to_store net request w with
    | Some _ => store_create CACHE_NAME (caches w)
    | None => caches w
    end
  /\ detached (snd (on_fetch net request w))
     = (detached w ++
        match copy_to_store net request w with
        | Some r => [ThenPut (Resolved CACHE_NAME) request r]
        | None => []
        end)%list.
Proof.
  unfold copy_to_store. destruct (Str.startsWith _ _) eqn:Hp.
  - rewrite (on_fetch_api _ _ Hp), app_nil_r. destruct (net request) as [r|e] eqn:Hnet.
    + by rewrite (api_call_resolved _ _ _ _ Hnet).
    + by rewrite (api_call_rejected _ _ _ _ Hnet).
  - rewrite (on_fetch_static _ _ Hp).
    destruct (storage_lookup (caches w) request) as [c|] eqn:Hc.
    + by rewrite (static_asset_hit _ _ _ _ Hc), app_nil_r.
    + destruct (net request) as [r|e] eqn:Hnet.
      * destruct (ok r && String.eqb (method request) "GET") eqn:Hg.
        -- by rewrite (static_asset_miss_stored _ _ _ _ Hc Hnet Hg).
        -- by rewrite (static_asset_miss_unstored _ _ _ _ Hc Hnet Hg), app_nil_r.
      * by rewrite (static_asset_miss_rejected _ _ _ _ Hc Hnet), app_nil_r.
Qed.

(** Whatever the listener does, no cache answers differently when its own
    promise settles: an opened cache is empty or was there. *)
Lemma on_fetch_lookup_at_return net request w q :
  storage_lookup (caches (snd (on_fetch net request w))) q = storage_lookup (caches w) q.
Proof.
  destruct (on_fetch_storage net request w) as [-> _].
  destruct (copy_to_store net request w); [apply storage_lookup_create|done].
Qed.

(** X1. Outside the API branch, when no cache matches the request and the
    server answers with a status outside 200-299, that answer is what the
    listener gives back, and it is not kept: no write is started and the
    caches stay as they were, whatever the method. *)
Theorem static_error_status_unstored
    (net : Request -> Outcome Response) (request : Request) (w : World) (r : Response) :
  Str.startsWith (pathname (URL_new (url request))) "/api/" = false ->
  storage_lookup (caches w) request = None ->
  net request = Resolved r ->
  ok r = false ->
  fst (on_fetch net request w) = Resolved r
  /\ caches (snd (on_fetch net request w)) = caches w
  /\ detached (snd (on_fetch net request w)) = detached w
  /\ storage_lookup (caches (settle (snd (on_fetch net request w)))) request
     = storage_lookup (caches (settle w)) request.
Proof.
  intros Hp Hc Hnet Hok.
  assert (ok r && String.eqb (method request) "GET" = false) as Hg by by rewrite Hok.
  rewrite (on_fetch_static _ _ Hp), (static_asset_miss_unstored _ _ _ _ Hc Hnet Hg).
  by rewrite !settle_caches.
Qed.

Lemma static_error_status_unstored_witness :
  fst (on_fetch (fun _ => Resolved (Samples.page 404 "not found"))
         (Samples.get "/missing.png") Samples.fresh)
  = Resolved (Samples.page 404 "not found")
  /\ detached (snd (on_fetch (fun _ => Resolved (Samples.page 404 "not found"))
                      (Samples.get "/missing.png") Samples.fresh)) = [].
Proof.
  destruct (static_error_status_unstored
              (fun _ => Resolved (Samples.page 404 "not found"))
              (Samples.get "/missing.png") Samples.fresh (Samples.page 404 "not found"))
    as (H1 & _ & H2 & _); [reflexivity..|].
  split; [exact H1|exact H2].
Defined.

(** X2. Outside the API branch, a request whose method is not GET is never
    answered from a cache, whatever the caches hold: the listener looks up,
    finds nothing, fetches, and gives back the outcome of the fetch, resolved
    or rejected; nothing is written and no write is started. *)
Theorem non_get_bypasses_cache
    (net : Request -> Outcome Response) (request : Request) (w : World) :
  Str.startsWith (pathname (URL_new (url request))) "/api/" = false ->
  method request <> "GET" ->
  fst (on_fetch net request w) = net request
  /\ new_calls w (snd (on_fetch net request w))
     = [CallCachesMatch request; CallFetch request]
  /\ caches (snd (on_fetch net request w)) = caches w
  /\ detached (snd (on_fetch net request w)) = detached w.
Proof.
  intros Hp Hm.
  pose proof (storage_lookup_not_get (caches w) request Hm) as Hc.
  pose proof (on_fetch_outcome net request w) as Ho.
  pose proof (on_fetch_trace net request w) as Ht.
  destruct (on_fetch_storage net request w) as [Hs Hd].
  rewrite (copy_to_store_not_get net request w Hm) in Ht, Hs, Hd.
  rewrite Hp, Hc in Ho, Ht. rewrite app_nil_r in Hd. done.
Qed.

Lemma non_get_bypasses_cache_witness :
  fst (on_fetch Samples.net_up (Samples.post "/index.html")
         (Samples.with_caches
            [(CACHE_NAME, {[ "https://app.example/index.html" :=
                               Samples.stored (Samples.get "/index.html") (Samples.page 200 "home") ]})]))
  = Resolved (Samples.page 200 "https://app.example/index.html").
Proof.
  destruct (non_get_bypasses_cache Samples.net_up (Samples.post "/index.html")
              (Samples.with_caches
                 [(CACHE_NAME, {[ "https://app.example/index.html" :=
                               Samples.stored (Samples.get "/index.html") (Samples.page 200 "home") ]})]))
    as [H _]; [reflexivity|discriminate|].
  exact H.
Defined.

(** X3. A request of the API branch is handled without the caches: no call
    of the listener reads or changes them, and its answer is the same in
    every state, whatever the caches hold for the request. *)
Theorem api_never_uses_cache
    (net : Request -> Outcome Response) (request : Request) (w w' : World) :
  Str.startsWith (pathname (URL_new (url request))) "/api/" = true ->
  (forall c, c ∈ new_calls w (snd (on_fetch net request w)) -> is_cache_call c = false)
  /\ fst (on_fetch net request w) = fst (on_fetch net request w').
Proof.
  intros Hp. split.
  - intros c. rewrite on_fetch_trace, Hp.
    destruct (net request); rewrite ?elem_of_cons, elem_of_nil; intros H;
      repeat destruct H as [->|H]; done.
  - by rewrite !on_fetch_outcome, Hp.
Qed.

Lemma api_never_uses_cache_witness :
  fst (on_fetch Samples.net_up (Samples.get "/api/status")
         (Samples.with_caches
            [(CACHE_NAME, {[ "https://app.example/api/status" :=
      Samples.stored (Samples.get "/api/status") (Samples.page 200 "old") ]})]))
  = fst (on_fetch Samples.net_up (Samples.get "/api/status") Samples.fresh).
Proof.
  destruct (api_never_uses_cache Samples.net_up (Samples.get "/api/status")
              (Samples.with_caches
                 [(CACHE_NAME, {[ "https://app.example/api/status" :=
      Samples.stored (Samples.get "/api/status") (Samples.page 200 "old") ]})])
              Samples.fresh) as [_ H]; [reflexivity|].
  exact H.
Defined.

(** X4. Handling a request goes to the network at most once, and only for
    the request itself: not at all on a cache hit outside the API branch,
    exactly once in every other case. Nothing is retried. *)
Theorem fetch_at_most_one_network_call
    (net : Request -> Outcome Response) (request : Request) (w : World) :
  List.filter is_fetch (new_calls w (snd (on_fetch net request w)))
  = if Str.startsWith (pathname (URL_new (url request))) "/api/"
    then [CallFetch request]
    else match storage_lookup (caches w) request with
         | Some _ => []
         | None => [CallFetch request]
         end.
Proof.
  rewrite on_fetch_trace.
  destruct (Str.startsWith _ _).
  - by destruct (net request).
  - destruct (storage_lookup (caches w) request); [done|].
    by destruct (copy_to_store net request w).
Qed.

(** X5. The listener's answer is a rejection in one case only: the request
    is outside the API branch, no cache matches it, and the fetch is
    rejected; the reason is then that of the fetch. *)
Theorem fetch_rejects_only_on_static_miss_offline
    (net : Request -> Outcome Response) (request : Request) (w : World) (e : Error) :
  fst (on_fetch net request w) = Rejected e
  <-> Str.startsWith (pathname (URL_new (url request))) "/api/" = false
      /\ storage_lookup (caches w) request = None
      /\ net request = Rejected e.
Proof.
  rewrite on_fetch_outcome. split.
  - destruct (Str.startsWith _ _).
    + by destruct (net request).
    + destruct (storage_lookup (caches w) request); [done|]. by intros ->.
  - intros (-> & -> & ->). done.
Qed.

Lemma fetch_rejects_only_on_static_miss_offline_witness :
  Str.startsWith (pathname (URL_new (url (Samples.get "/logo.png")))) "/api/" = false
  /\ storage_lookup (caches Samples.fresh) (Samples.get "/logo.png") = None
  /\ Samples.net_down (Samples.get "/logo.png") = Rejected (TypeError "Failed to fetch").
Proof.
  apply (fetch_rejects_only_on_static_miss_offline Samples.net_down
           (Samples.get "/logo.png") Samples.fresh (TypeError "Failed to fetch")).
  reflexivity.
Defined.

(** ** What a write changes in the answers of the caches *)

Lemma copy_to_store_Some net request w r :
  Str.startsWith (pathname (URL_new (url request))) "/api/" = false ->
  storage_lookup (caches w) request = None ->
  net request = Resolved r ->
  ok r = true ->
  method request = "GET" ->
  copy_to_store net request w = Some r.
Proof.
  intros Hp Hmiss Hnet Hok Hm. unfold copy_to_store.
  by rewrite Hp, Hmiss, Hnet, Hok, Hm.
Qed.

(** The caches once the write of a copy has run, none pending beforehand. *)
Lemma settle_after_copy net request w r :
  detached w = [] ->
  copy_to_store net request w = Some r ->
  caches (settle (snd (on_fetch net request w)))
  = job_effect (ThenPut (Resolved CACHE_NAME) request r)
      (store_create CACHE_NAME (caches w)).
Proof.
  intros Hd Hcopy. destruct (on_fetch_storage net request w) as [Hc Hj].
  rewrite Hcopy in Hc, Hj. rewrite Hd in Hj.
  by rewrite (settle_one_job _ _ Hj), Hc.
Qed.

Lemma settle_without_copy net request w :
  detached w = [] ->
  copy_to_store net request w = None ->
  caches (settle (snd (on_fetch net request w))) = caches w.
Proof.
  intros Hd Hcopy. destruct (on_fetch_storage net request w) as [Hc Hj].
  rewrite Hcopy in Hc, Hj. rewrite Hd in Hj.
  by rewrite (settle_no_job _ Hj), Hc.
Qed.

(** X6. With no write pending beforehand, handling a request and letting the
    write it registered run changes what the caches answer for no request of
    another URL: the listener writes under the URL of the request it
    handles, and nowhere else. *)
Theorem fetch_keeps_answers_for_other_urls
    (net : Request -> Outcome Response) (request : Request) (w : World) (q : Request) :
  detached w = [] ->
  request_key q <> request_key request ->
  storage_lookup (caches (settle (snd (on_fetch net request w)))) q
  = storage_lookup (caches w) q.
Proof.
  intros Hd Hk. destruct (copy_to_store net request w) as [r|] eqn:Hcopy.
  - rewrite (settle_after_copy _ _ _ _ Hd Hcopy), storage_lookup_job_other by done.
    apply storage_lookup_create.
  - by rewrite (settle_without_copy _ _ _ Hd Hcopy).
Qed.

Lemma fetch_keeps_answers_for_other_urls_witness :
  storage_lookup
    (caches (settle (snd (on_fetch Samples.net_up (Samples.get "/logo.png")
                            (Samples.with_caches
                               [(CACHE_NAME,
                                 {[ "https://app.example/" :=
                                      Samples.stored (Samples.get "/")
                                        (Samples.page 200 "home") ]})])))))
    (Samples.get "/")
  = Some (Samples.page 200 "home").
Proof.
  rewrite (fetch_keeps_answers_for_other_urls Samples.net_up (Samples.get "/logo.png")
             (Samples.with_caches
                [(CACHE_NAME,
                  {[ "https://app.example/" :=
                       Samples.stored (Samples.get "/") (Samples.page 200 "home") ]})])
             (Samples.get "/")); [reflexivity|reflexivity|discriminate].
Defined.

(** Under the URL of the request itself the write replaces what the cache
    kept: when the kept response varies on a header and the new request
    differs on it, the earlier request is no longer answered. *)
Example write_replaces_entry_of_same_url :
  storage_lookup (caches Varying.world) Varying.first = Some Varying.json
  /\ storage_lookup (caches Varying.world) Varying.second = None
  /\ storage_lookup
       (caches (settle (snd (on_fetch Varying.net Varying.second Varying.world))))
       Varying.second = Some Varying.html
  /\ storage_lookup
       (caches (settle (snd (on_fetch Varying.net Varying.second Varying.world))))
       Varying.first = None.
Proof. repeat split. Qed.

(** X7. Outside the API branch, once a request that no cache matched has been
    answered from the network with a response the cache accepts, and the
    write has run, the same request is answered with that response from the
    cache, without the network: whatever the network would do then. *)
Theorem second_request_served_from_cache
    (net net' : Request -> Outcome Response) (request : Request) (w : World)
    (r : Response) :
  Str.startsWith (pathname (URL_new (url request))) "/api/" = false ->
  detached w = [] ->
  storage_lookup (caches w) request = None ->
  net request = Resolved r ->
  ok r = true ->
  put_accepts request r = true ->
  fst (on_fetch net' request (settle (snd (on_fetch net request w)))) = Resolved r
  /\ new_calls (settle (snd (on_fetch net request w)))
       (snd (on_fetch net' request (settle (snd (on_fetch net request w)))))
     = [CallCachesMatch request].
Proof.
  intros Hp Hd Hmiss Hnet Hok Hacc.
  assert (storage_lookup (caches (settle (snd (on_fetch net request w)))) request
          = Some r) as Hhit.
  { rewrite (settle_after_copy net request w r Hd
               (copy_to_store_Some _ _ _ _ Hp Hmiss Hnet Hok (put_accepts_get _ _ Hacc))).
    apply storage_lookup_job_hit; [done| |].
    - by rewrite storage_lookup_create.
    - rewrite store_of_create. by eexists. }
  by apply static_hit_no_network.
Qed.

Lemma second_request_served_from_cache_witness :
  fst (on_fetch Samples.net_down (Samples.get "/logo.png")
         (settle (snd (on_fetch Samples.net_up (Samples.get "/logo.png") Samples.fresh))))
  = Resolved (Samples.page 200 "https://app.example/logo.png").
Proof.
  destruct (second_request_served_from_cache Samples.net_up Samples.net_down
              (Samples.get "/logo.png") Samples.fresh
              (Samples.page 200 "https://app.example/logo.png")) as [H _];
    [reflexivity..|].
  exact H.
Defined.

(** ** The install listener as a whole *)

Lemma fetched_entries_storable net reqs entries :
  fetched_entries reqs (map net reqs) = Some entries ->
  forall req, req ∈ reqs ->
    exists r, net req = Resolved r /\ ok r && storable_response r = true.
Proof.
  revert entries. induction reqs as [|q reqs IH]; intros entries; simpl.
  - intros _ req Hin. by apply elem_of_nil in Hin.
  - destruct (net q) as [r|e] eqn:Hq; [|done].
    destruct (ok r && storable_response r) eqn:Hok; [|done].
    destruct (fetched_entries reqs (map net reqs)) as [l|] eqn:Hl; [|done].
    intros _ req [->|Hin]%elem_of_cons; [by exists r|]. by apply (IH l).
Qed.

Lemma fetched_entries_keys reqs os entries :
  fetched_entries reqs os = Some entries -> entries.*1 = request_key <$> reqs.
Proof.
  revert os entries. induction reqs as [|q reqs IH]; intros [|[r|e] os] entries; simpl;
    try done.
  - by intros [= <-].
  - destruct (ok r && storable_response r); [|done].
    destruct (fetched_entries reqs os) as [l|] eqn:Hl; [|done].
    intros [= <-]. rewrite !fmap_cons. simpl. by rewrite (IH os l).
Qed.

(** Whether [cache.addAll] resolves is a matter of the network alone. *)
Lemma cache_addAll_outcome net origin cache urls w w' :
  fst (cache_addAll net origin cache urls w) = fst (cache_addAll net origin cache urls w').
Proof.
  unfold cache_addAll, call, modify, bind. simpl.
  destruct (forallb storable_request (map (asset_request origin) urls)); [|done].
  rewrite !mapM_fetch.
  destruct (fetched_entries _ _) as [entries|]; [|done].
  by destruct (bool_decide (NoDup (entries.*1))).
Qed.

Lemma on_install_outcome net origin w w' :
  fst (on_install net origin w) = fst (on_install net origin w').
Proof.
  destruct (on_install_unfold net origin w) as (-> & _).
  destruct (on_install_unfold net origin w') as (-> & _).
  apply cache_addAll_outcome.
Qed.

Lemma on_install_no_entries net origin w :
  fetched_entries (map (asset_request origin) ASSETS)
    (map net (map (asset_request origin) ASSETS)) = None ->
  (exists e, fst (on_install net origin w) = Rejected e)
  /\ caches (snd (on_install net origin w)) = store_create CACHE_NAME (caches w).
Proof.
  intros Hnone.
  destruct (on_install_unfold net origin w) as (Hfst & Hcaches & _).
  rewrite Hfst, Hcaches.
  destruct (cache_addAll_settles net origin CACHE_NAME ASSETS
              (install_opened w))
    as [(entries & _ & Hf & _)|(e' & He' & _ & ->)]; [congruence|].
  split; [by exists e'|done].
Qed.

(** X8. A worker whose install listener's promise resolves does not wait for
    the pages of the version before it: having asked to skip waiting, it
    becomes the active worker at once, whatever the registration held, and
    its activate listener runs right after its install listener. *)
Theorem successful_install_activates_at_once
    (net : Request -> Outcome Response) (origin : string) (w : World)
    (v : string) (reg : Registration) :
  fst (on_install net origin w) = Resolved tt ->
  install_worker net origin v reg w
  = ({| active := Some v; waiting := None |},
     snd (on_activate (snd (on_install net origin w)))).
Proof.
  intros Hres. destruct (on_install_unfold net origin w) as (_ & _ & Hskip).
  unfold install_worker, activate_worker, gets, bind, ret.
  destruct (on_install net origin w) as [[[]|e] w1]; [|discriminate].
  simpl in *. rewrite Hskip. simpl. by destruct (on_activate w1).
Qed.

Lemma successful_install_activates_at_once_witness :
  fst (install_worker Samples.net_up Samples.origin "v1"
         {| active := Some "v0"; waiting := Some "v0.1" |} NoCurrent.world)
  = {| active := Some "v1"; waiting := None |}.
Proof.
  rewrite (successful_install_activates_at_once Samples.net_up Samples.origin
             NoCurrent.world "v1" {| active := Some "v0"; waiting := Some "v0.1" |});
    reflexivity.
Defined.

(** X9. An asset that the server answers with a status outside 200-299, or
    with a partial response (206), fails the install like a failed fetch:
    the listener's promise is rejected and no asset is stored, the others
    included; the cache is only created. *)
Theorem install_rejects_on_error_status
    (net : Request -> Outcome Response) (origin : string) (w : World)
    (path : string) (r : Response) :
  path ∈ ASSETS ->
  net (asset_request origin path) = Resolved r ->
  ok r = false \/ status r = 206 ->
  (exists e, fst (on_install net origin w) = Rejected e)
  /\ caches (snd (on_install net origin w)) = store_create CACHE_NAME (caches w).
Proof.
  intros Hin Hnet Hbad. apply on_install_no_entries.
  destruct (fetched_entries _ _) as [entries|] eqn:Hf; [|done].
  destruct (fetched_entries_storable net _ entries Hf (asset_request origin path)
              (asset_request_elem origin path ASSETS Hin)) as (r' & Hr' & Hst).
  assert (r' = r) as -> by congruence.
  apply andb_true_iff in Hst as [Hok Hst]. destruct Hbad as [Hbad|Hbad]; [congruence|].
  unfold storable_response in Hst. by rewrite Hbad in Hst.
Qed.

Lemma install_rejects_on_error_status_witness :
  caches (snd (on_install
                 (fun req => if String.eqb (url req) "https://app.example/manifest.json"
                             then Resolved (Samples.page 404 "not found")
                             else Samples.net_up req)
                 Samples.origin Samples.fresh))
  = [(CACHE_NAME, ∅)].
Proof.
  destruct (install_rejects_on_error_status
              (fun req => if String.eqb (url req) "https://app.example/manifest.json"
                          then Resolved (Samples.page 404 "not found")
                          else Samples.net_up req)
              Samples.origin Samples.fresh "/manifest.json" (Samples.page 404 "not found"))
    as [_ H].
  - unfold ASSETS. repeat constructor.
  - reflexivity.
  - left. reflexivity.
  - exact H.
Defined.

(** The caches after the install listener, whichever way it settles. *)
Lemma on_install_caches net origin w :
  (exists entries,
      fst (on_install net origin w) = Resolved tt
      /\ entries.*1 = request_key <$> map (asset_request origin) ASSETS
      /\ caches (snd (on_install net origin w))
         = store_update CACHE_NAME (fun c => list_to_map entries ∪ c)
             (store_create CACHE_NAME (caches w)))
  \/ ((exists e, fst (on_install net origin w) = Rejected e)
      /\ caches (snd (on_install net origin w)) = store_create CACHE_NAME (caches w)).
Proof.
  destruct (on_install_unfold net origin w) as (-> & -> & _).
  destruct (cache_addAll_settles net origin CACHE_NAME ASSETS
              (install_opened w))
    as [(entries & Hres & Hf & _ & ->)|(e & He & _ & ->)].
  - left. exists entries. split; [done|]. split; [|done].
    by apply fetched_entries_keys in Hf.
  - right. split; [by exists e|done].
Qed.

(** X10. Whichever way it settles, the install listener removes no cache and
    changes only what the caches answer for its own assets: every cache under
    another name is as it was, and a request whose key is that of no asset
    gets the answer it got before. *)
Theorem install_changes_only_asset_entries
    (net : Request -> Outcome Response) (origin : string) (w : World) :
  (caches (snd (on_install net origin w))).*1 = (store_create CACHE_NAME (caches w)).*1
  /\ (forall n, n <> CACHE_NAME ->
        store_of (caches (snd (on_install net origin w))) n = store_of (caches w) n)
  /\ (forall q,
        (forall path, path ∈ ASSETS ->
           request_key q <> request_key (asset_request origin path)) ->
        storage_lookup (caches (snd (on_install net origin w))) q
        = storage_lookup (caches w) q).
Proof.
  destruct (on_install_caches net origin w) as [(entries & _ & Hk & ->)|[_ ->]].
  - split; [by rewrite store_update_names|]. split.
    + intros n Hn. by rewrite store_of_update_ne, store_of_create_ne.
    + intros q Hq.
      rewrite storage_lookup_update_frame; [by rewrite storage_lookup_create|].
      intros c. unfold cache_lookup. destruct (String.eqb (method q) "GET"); [|done].
      rewrite lookup_union_r; [done|].
      apply not_elem_of_list_to_map_1. rewrite Hk.
      intros (req & Hreq & Hin)%list_elem_of_fmap.
      apply list_elem_of_In, in_map_iff in Hin as (path & <- & Hpath).
      by apply (Hq path); [apply list_elem_of_In|].
  - split; [done|]. split.
    + intros n Hn. by rewrite store_of_create_ne.
    + intros q _. apply storage_lookup_create.
Qed.

Lemma install_changes_only_asset_entries_witness :
  storage_lookup
    (caches (snd (on_install Samples.net_up Samples.origin
                    (Samples.with_caches
                       [(CACHE_NAME,
                         {[ "https://app.example/logo.png" :=
      Samples.stored (Samples.get "/logo.png") (Samples.page 200 "logo") ]})]))))
    (Samples.get "/logo.png")
  = Some (Samples.page 200 "logo").
Proof.
  destruct (install_changes_only_asset_entries Samples.net_up Samples.origin
              (Samples.with_caches
                 [(CACHE_NAME,
                   {[ "https://app.example/logo.png" :=
      Samples.stored (Samples.get "/logo.png") (Samples.page 200 "logo") ]})]))
    as (_ & _ & H).
  rewrite (H (Samples.get "/logo.png")); [reflexivity|].
  intros path Hin. unfold ASSETS in Hin.
  repeat (apply elem_of_cons in Hin as [->|Hin]; [discriminate|]).
  by apply elem_of_nil in Hin.
Defined.

(** X11. Installing again over a successful install, with the network
    answering as before, resolves again and leaves the caches exactly as the
    first install left them. *)
Theorem install_again_changes_nothing
    (net : Request -> Outcome Response) (origin : string) (w : World) :
  fst (on_install net origin w) = Resolved tt ->
  fst (on_install net origin (snd (on_install net origin w))) = Resolved tt
  /\ caches (snd (on_install net origin (snd (on_install net origin w))))
     = caches (snd (on_install net origin w)).
Proof.
  intros Hres. split; [by rewrite <- (on_install_outcome net origin w)|].
  destruct (on_install_unfold net origin w) as (Hfst & Hc & _).
  destruct (cache_addAll_settles net origin CACHE_NAME ASSETS
              (install_opened w))
    as [(entries & _ & Hf & _ & Hc1)|(e & He & _)]; [|congruence].
  rewrite Hc1 in Hc. simpl in Hc.
  destruct (on_install_unfold net origin (snd (on_install net origin w)))
    as (Hfst2 & -> & _).
  destruct (cache_addAll_settles net origin CACHE_NAME ASSETS
              (install_opened (snd (on_install net origin w))))
    as [(entries' & _ & Hf' & _ & ->)|(e & He & _)].
  - assert (entries' = entries) as -> by congruence. simpl. rewrite Hc.
    rewrite store_create_present.
    + apply store_update_idemp. intros c.
      by rewrite (assoc_L (∪)), (idemp_L (∪)).
    + rewrite store_of_update, store_of_create. by eexists.
  - rewrite <- Hfst2, <- (on_install_outcome net origin w) in He. congruence.
Qed.

Lemma install_again_changes_nothing_witness :
  caches (snd (on_install Samples.net_up Samples.origin
                 (snd (on_install Samples.net_up Samples.origin Samples.fresh))))
  = caches (snd (on_install Samples.net_up Samples.origin Samples.fresh)).
Proof.
  destruct (install_again_changes_nothing Samples.net_up Samples.origin Samples.fresh)
    as [_ H]; [reflexivity|].
  exact H.
Defined.

(** ** The activate listener as a whole *)

Lemma store_of_remove_ne (cs : CacheStorage) n m :
  m <> n -> store_of (store_remove n cs) m = store_of cs m.
Proof.
  intros Hne. unfold store_remove. induction cs as [|[k c] cs IH]; [done|].
  rewrite filter_cons. simpl. destruct (decide (k ≠ n)) as [Hk|Hk]; simpl.
  - by rewrite IH.
  - apply dec_stable in Hk. subst k.
    by destruct (String.eqb_spec n m) as [->|_].
Qed.

Lemma store_of_names_Some (cs : CacheStorage) n :
  n ∈ cs.*1 -> is_Some (store_of cs n).
Proof.
  induction cs as [|[k c] cs IH]; simpl; [by intros ?%elem_of_nil|].
  intros [->|Hin]%elem_of_cons.
  - rewrite String.eqb_refl. by eexists.
  - destruct (String.eqb k n); [by eexists|by apply IH].
Qed.

Lemma mapM_caches_delete_calls names w :
  calls (snd (mapM caches_delete names w)) = (calls w ++ map CallCachesDelete names)%list.
Proof.
  revert w. induction names as [|n names IH]; intros w.
  - simpl. by rewrite app_nil_r.
  - rewrite mapM_cons, caches_delete_run.
    pose proof (IH (set_caches (store_remove n) (add_call (CallCachesDelete n) w))) as H.
    destruct (mapM caches_delete names _) as [os w2]. simpl in *.
    by rewrite H, <- app_assoc.
Qed.

(** Deleting caches that are there, each once, reports [true] every time. *)
Lemma mapM_caches_delete_true names w :
  NoDup names ->
  (forall n, n ∈ names -> is_Some (store_of (caches w) n)) ->
  fst (mapM caches_delete names w) = map Resolved (replicate (length names) true).
Proof.
  revert w. induction names as [|n names IH]; intros w Hnd Hall; [done|].
  apply NoDup_cons in Hnd as [Hn Hnd].
  rewrite mapM_cons, caches_delete_run.
  pose proof (IH (set_caches (store_remove n) (add_call (CallCachesDelete n) w)) Hnd) as H.
  destruct (mapM caches_delete names _) as [os w2]. simpl in *.
  rewrite H.
  - f_equal. f_equal. apply bool_decide_eq_true, Hall, elem_of_cons. by left.
  - intros m Hm. rewrite store_of_remove_ne by (intros ->; done).
    apply Hall, elem_of_cons. by right.
Qed.

(** X12. The activate listener asks for the names once and claims the
    clients before anything is deleted; it then deletes every cache whose
    name is not [CACHE_NAME], each once and in the order of the names. It
    never asks to delete the current cache and makes no other call. With
    distinct names, every deletion reports that the cache was there. *)
Theorem activation_deletes_each_other_cache_once (w : World) :
  new_calls w (snd (on_activate w))
  = (CallCachesKeys
      :: CallClientsClaim
      :: map CallCachesDelete (filter (fun k => k ≠ CACHE_NAME) ((caches w).*1)))%list
  /\ (CallCachesDelete CACHE_NAME ∉ new_calls w (snd (on_activate w)))
  /\ (NoDup ((caches w).*1) ->
      fst (on_activate w)
      = Resolved (replicate
                    (length (filter (fun k => k ≠ CACHE_NAME) ((caches w).*1))) true)).
Proof.
  rewrite on_activate_run.
  assert (new_calls w
            (snd (mapM caches_delete (filter (fun k => k ≠ CACHE_NAME) ((caches w).*1))
                    (add_call CallClientsClaim (add_call CallCachesKeys w))))
          = (CallCachesKeys
              :: CallClientsClaim
              :: map CallCachesDelete
                   (filter (fun k => k ≠ CACHE_NAME) ((caches w).*1)))%list) as Htrace.
  { unfold new_calls. rewrite mapM_caches_delete_calls. simpl.
    by rewrite <- !app_assoc, drop_length_app. }
  split; [done|]. split.
  - simpl. rewrite Htrace. intros [[=]|[[=]|Hin]%elem_of_cons]%elem_of_cons.
    apply list_elem_of_In, in_map_iff in Hin as (k & [= ->] & Hk).
    by apply list_elem_of_In, list_elem_of_filter in Hk as [Hk _].
  - intros Hnd. simpl. rewrite mapM_caches_delete_true.
    + apply Promise_all_resolved.
    + by apply NoDup_filter.
    + intros n [_ Hn]%list_elem_of_filter. by apply store_of_names_Some.
Qed.

Lemma activation_deletes_each_other_cache_once_witness :
  fst (on_activate
         (Samples.with_caches [("atc-v0", ∅); (CACHE_NAME, ∅); ("user-data", ∅)]))
  = Resolved [true; true].
Proof.
  destruct (activation_deletes_each_other_cache_once
              (Samples.with_caches [("atc-v0", ∅); (CACHE_NAME, ∅); ("user-data", ∅)]))
    as (_ & _ & H).
  rewrite H; [reflexivity|].
  simpl. apply (bool_decide_unpack _). reflexivity.
Defined.

(** ** From install to the first requests *)

(** X13. After a worker has installed and activated, over caches of distinct
    names, each asset whose request is outside the API branch is answered
    from the cache with the response the network gave at install, by the
    cache lookup alone: the network, up or down, is not asked. *)
Theorem assets_served_offline_after_upgrade
    (net net' : Request -> Outcome Response) (origin : string) (w : World)
    (v : string) (reg : Registration) (path : string) :
  NoDup ((caches w).*1) ->
  fst (on_install net origin w) = Resolved tt ->
  path ∈ ASSETS ->
  Str.startsWith (pathname (URL_new (url (asset_request origin path)))) "/api/" = false ->
  exists r,
    net (asset_request origin path) = Resolved r
    /\ fst (on_fetch net' (asset_request origin path)
              (snd (install_worker net origin v reg w))) = Resolved r
    /\ new_calls (snd (install_worker net origin v reg w))
         (snd (on_fetch net' (asset_request origin path)
                 (snd (install_worker net origin v reg w))))
       = [CallCachesMatch (asset_request origin path)].
Proof.
  intros Hnd Hres Hin Hp.
  destruct (on_install_resolved_stored net origin w Hres path Hin)
    as (r & store & Hnet & _ & Hstore & Hr).
  destruct (upgrade_leaves_current_cache net origin v reg w Hnd Hres)
    as (_ & Hnames & Hkeep).
  exists r. split; [done|].
  apply static_hit_no_network; [done|].
  apply (storage_lookup_first _ CACHE_NAME store); [by rewrite Hkeep| |done].
  by rewrite (stores_before_sole _ _ Hnames).
Qed.

Lemma assets_served_offline_after_upgrade_witness :
  exists r,
    Samples.net_up (asset_request Samples.origin "/index.html") = Resolved r
    /\ fst (on_fetch Samples.net_down (asset_request Samples.origin "/index.html")
              (snd (install_worker Samples.net_up Samples.origin "v1"
                      {| active := Some "v0"; waiting := None |} NoCurrent.world)))
       = Resolved r
    /\ new_calls (snd (install_worker Samples.net_up Samples.origin "v1"
                         {| active := Some "v0"; waiting := None |} NoCurrent.world))
         (snd (on_fetch Samples.net_down (asset_request Samples.origin "/index.html")
                 (snd (install_worker Samples.net_up Samples.origin "v1"
                         {| active := Some "v0"; waiting := None |} NoCurrent.world))))
       = [CallCachesMatch (asset_request Samples.origin "/index.html")].
Proof.
  apply (assets_served_offline_after_upgrade Samples.net_up Samples.net_down
           Samples.origin NoCurrent.world "v1"
           {| active := Some "v0"; waiting := None |} "/index.html").
  - simpl. apply NoDup_singleton.
  - reflexivity.
  - unfold ASSETS. repeat constructor.
  - reflexivity.
Defined.

(** X14. With no write pending beforehand, a GET request outside the API
    branch that no cache matched and the network answered with a status in
    200-299 leaves the current cache in existence once the write has run,
    created at the end of the list when it was not there: also when the
    cache refused the response, in which case it is created and nothing
    else changes. *)
Theorem cacheable_miss_creates_current_cache
    (net : Request -> Outcome Response) (request : Request) (w : World) (r : Response) :
  Str.startsWith (pathname (URL_new (url request))) "/api/" = false ->
  detached w = [] ->
  method request = "GET" ->
  storage_lookup (caches w) request = None ->
  net request = Resolved r ->
  ok r = true ->
  (caches (settle (snd (on_fetch net request w)))).*1
  = (store_create CACHE_NAME (caches w)).*1
  /\ is_Some (store_of (caches (settle (snd (on_fetch net request w)))) CACHE_NAME)
  /\ (put_accepts request r = false ->
      caches (settle (snd (on_fetch net request w))) = store_create CACHE_NAME (caches w)).
Proof.
  intros Hp Hd Hm Hmiss Hnet Hok.
  rewrite (settle_after_copy net request w r Hd
             (copy_to_store_Some _ _ _ _ Hp Hmiss Hnet Hok Hm)). simpl.
  destruct (put_accepts request r).
  - rewrite store_update_names, store_of_update, store_of_create.
    split; [done|]. split; [by eexists|done].
  - rewrite store_of_create. split; [done|]. split; [by eexists|done].
Qed.

Lemma cacheable_miss_creates_current_cache_witness :
  caches (settle (snd (on_fetch Samples.net_partial (Samples.get "/intro.mp4")
                         NoCurrent.world)))
  = [("atc-v0", ∅); (CACHE_NAME, ∅)].
Proof.
  destruct (cacheable_miss_creates_current_cache Samples.net_partial
              (Samples.get "/intro.mp4") NoCurrent.world
              (Samples.page 206 "https://app.example/intro.mp4")) as (_ & _ & H);
    [reflexivity..|].
  rewrite H; reflexivity.
Defined.

(** ** Routing, by the characters of the pathname *)

Lemma startsWith_iff (s p : string) :
  Str.startsWith s p = true <-> exists rest, s = p +:+ rest.
Proof.
  unfold Str.startsWith. revert s. induction p as [|a p IH]; intros s.
  - split; [intros _; by exists s|]. by destruct s.
  - destruct s as [|b s]; simpl.
    + split; [done|]. by intros [rest [=]].
    + destruct (ascii_dec a b) as [->|Hne].
      * rewrite IH. split; intros [rest Hrest]; exists rest; [by rewrite Hrest|].
        by injection Hrest.
      * split; [done|]. intros [rest [= Hab _]]. by destruct Hne.
Qed.

Lemma network_only_intro net request w :
  Str.startsWith (pathname (URL_new (url request))) "/api/" = true ->
  network_only net request w.
Proof.
  intros Hp. split; [|split].
  - unfold on_fetch. by rewrite Hp.
  - rewrite on_fetch_trace, Hp. destruct (net request); by eexists.
  - by rewrite on_fetch_outcome, Hp.
Qed.

Lemma cache_first_intro net request w :
  Str.startsWith (pathname (URL_new (url request))) "/api/" = false ->
  cache_first net request w.
Proof.
  intros Hp. split; [|split].
  - unfold on_fetch. by rewrite Hp.
  - rewrite on_fetch_trace, Hp.
    destruct (storage_lookup (caches w) request); by eexists.
  - by rewrite on_fetch_outcome, Hp.
Qed.

(** C9. Which branch handles a request is decided by the pathname of its URL
    alone. A pathname made of the five characters [/api/] followed by
    anything is handled network only; every other pathname is handled cache
    first: in particular the pathname [/api] itself, and a pathname that
    goes on after [/api] with a character other than [/], as [/apidocs]. *)
Theorem routing_by_api_prefix
    (net : Request -> Outcome Response) (request : Request) (w : World) :
  ((exists rest, pathname (URL_new (url request)) = "/api/" +:+ rest) ->
     network_only net request w)
  /\ (~ (exists rest, pathname (URL_new (url request)) = "/api/" +:+ rest) ->
      cache_first net request w)
  /\ (pathname (URL_new (url request)) = "/api" -> cache_first net request w)
  /\ (forall c rest,
        pathname (URL_new (url request)) = "/api" +:+ String c rest ->
        c <> "/"%char ->
        cache_first net request w).
Proof.
  split; [|split; [|split]].
  - intros Hp%startsWith_iff. by apply network_only_intro.
  - intros Hp. apply cache_first_intro.
    destruct (Str.startsWith _ _) eqn:Hs; [|done].
    by apply startsWith_iff in Hs.
  - intros Hp. apply cache_first_intro. by rewrite Hp.
  - intros c rest Hp Hc. apply cache_first_intro.
    destruct (Str.startsWith _ _) eqn:Hs; [|done].
    apply startsWith_iff in Hs as [rest' Hs]. rewrite Hp in Hs.
    injection Hs as ->. done.
Qed.

Lemma routing_by_api_prefix_witness :
  network_only Samples.net_down (Samples.get "/api/status") Samples.fresh
  /\ cache_first Samples.net_down (Samples.get "/apidocs") Samples.fresh.
Proof.
  destruct (routing_by_api_prefix Samples.net_down (Samples.get "/api/status")
              Samples.fresh) as [Hapi _].
  destruct (routing_by_api_prefix Samples.net_down (Samples.get "/apidocs")
              Samples.fresh) as (_ & _ & _ & Hdocs).
  split.
  - apply Hapi. by exists "status".
  - apply (Hdocs "d"%char "ocs"); [reflexivity|discriminate].
Defined.

Example route_api_exact :
  pathname (URL_new "https://app.example/api") = "/api"
  /\ on_fetch Samples.net_down (Samples.get "/api") Samples.fresh
     = (Rejected (TypeError "Failed to fetch"),
        add_call (CallFetch (Samples.get "/api"))
          (add_call (CallCachesMatch (Samples.get "/api")) Samples.fresh)).
Proof. split; reflexivity. Qed.

Example route_api_status :
  fst (on_fetch Samples.net_down (Samples.get "/api/status") Samples.fresh)
  = Resolved offline_response.
Proof. reflexivity. Qed.

Example route_query_mentions_api :
  pathname (URL_new "https://app.example/search?next=/api/") = "/search"
  /\ fst (on_fetch Samples.net_down (Samples.get "/search?next=/api/") Samples.fresh)
     = Rejected (TypeError "Failed to fetch").
Proof. split; reflexivity. Qed.

(** ** After activation *)

Lemma fold_job_effect_names js (cs : CacheStorage) :
  (fold_left (fun cs j => job_effect j cs) js cs).*1 = cs.*1.
Proof.
  revert cs. induction js as [|j js IH]; intros cs; [done|].
  simpl. by rewrite IH, job_effect_names.
Qed.

(** Handling a request adds at most the current cache to the names, and
    nothing when it is there. *)
Lemma on_fetch_names net request w :
  (caches (settle (snd (on_fetch net request w)))).*1
  = match copy_to_store net request w with
    | Some _ => (store_create CACHE_NAME (caches w)).*1
    | None => (caches w).*1
    end.
Proof.
  rewrite settle_caches, fold_job_effect_names.
  destruct (on_fetch_storage net request w) as [-> _].
  by destruct (copy_to_store net request w).
Qed.

(** Handling a request, and the writes registered, keep the names distinct. *)
Lemma on_fetch_NoDup net request w :
  NoDup ((caches w).*1) ->
  NoDup ((caches (settle (snd (on_fetch net request w)))).*1).
Proof.
  intros Hnd. rewrite on_fetch_names.
  destruct (copy_to_store net request w); [by apply store_create_NoDup|done].
Qed.

Lemma on_install_opens net origin w :
  is_Some (store_of (caches (snd (on_install net origin w))) CACHE_NAME).
Proof.
  destruct (on_install_unfold net origin w) as (_ & -> & _).
  destruct (cache_addAll_settles net origin CACHE_NAME ASSETS (install_opened w))
    as [(entries & _ & _ & _ & ->)|(e & _ & _ & ->)].
  - apply store_update_keeps_store. rewrite install_opened_caches, store_of_create.
    by eexists.
  - rewrite install_opened_caches, store_of_create. by eexists.
Qed.

(** C6. The activate listener runs on what the install listener left, and
    the install listener opens the current cache. After activation,
    enumerating the cache names yields exactly one name, the current one:
    every cache that was there under another name is gone, one cache
    carries the current name, and this is still so once a request has been
    handled and its write has run. *)
Theorem activation_after_install_one_name
    (net : Request -> Outcome Response) (origin : string) (w : World) :
  NoDup ((caches w).*1) ->
  (exists bs, fst (on_activate (snd (on_install net origin w))) = Resolved bs)
  /\ (caches (snd (on_activate (snd (on_install net origin w))))).*1 = [CACHE_NAME]
  /\ (forall n, n <> CACHE_NAME ->
        store_of (caches (snd (on_activate (snd (on_install net origin w))))) n = None)
  /\ length (filter (fun n => n = CACHE_NAME)
               ((caches (snd (on_activate (snd (on_install net origin w))))).*1)) = 1
  /\ (forall net' request,
        (caches (settle (snd (on_fetch net' request
                                (snd (on_activate (snd (on_install net origin w)))))))).*1
        = [CACHE_NAME]).
Proof.
  intros Hnd.
  pose proof (on_install_NoDup net origin w Hnd) as Hnd1.
  destruct (on_install_opens net origin w) as [store Hstore].
  destruct (on_activate_caches (snd (on_install net origin w))) as [Hres Hc].
  destruct (filter_name_NoDup _ CACHE_NAME Hnd1) as [Hnames Hkeep].
  rewrite Hstore in Hnames.
  split; [done|]. rewrite Hc. split; [done|]. split; [|split].
  - intros n Hne. by apply store_of_filter_other.
  - by rewrite Hnames.
  - intros net' request. rewrite on_fetch_names, Hc.
    destruct (copy_to_store _ _ _); [|done].
    rewrite store_create_present; [done|]. rewrite Hkeep, Hstore. by eexists.
Qed.

Lemma activation_after_install_one_name_witness :
  (caches (snd (on_activate (snd (on_install Samples.net_up Samples.origin
                                     NoCurrent.world))))).*1
  = [CACHE_NAME].
Proof.
  destruct (activation_after_install_one_name Samples.net_up Samples.origin
              NoCurrent.world) as (_ & H & _).
  - simpl. apply NoDup_singleton.
  - exact H.
Defined.
